(** * Corpus loading in the document-embeddings workshop notebook

    The notebook [datafest/workshop.ipynb] loads the BBC news corpus in two
    ways: with the in-notebook function [read_files_from_folder], and with
    the [TextFiles] utility of [utils/load.py].  This development embeds
    the first from its Python source and the second from its description,
    over a small model of the operating-system services both rely on
    ([os.walk], [os.path.join], [open] in text mode, [fp.read]).  It then
    embeds the other cells of the notebook that hold code of their own: the
    stop-word filter and the table of stems, the loop of the tokens, the
    tagged documents and the loop of the embeddings. *)

From Stdlib Require Import Strings.String Strings.Ascii Strings.Byte.
From Stdlib Require Import Lists.List Arith Lia Bool.
From stdpp Require Import base option list strings gmap pretty.

Import ListNotations.
Set Warnings "-register-all".
Local Open Scope string_scope.
Local Open Scope list_scope.

(** ** Python strings *)

Module Py.

(** [s.endswith(suffix)]: [s] is [suffix], or what follows its first
    character ends with [suffix]. *)
Fixpoint endswith (s suffix : string) : bool :=
  String.eqb s suffix ||
  match s with
  | EmptyString => false
  | String _ s' => endswith s' suffix
  end.

(** [s.startswith(prefix)]. *)
Definition startswith (s pre : string) : bool := String.prefix pre s.

(** [posixpath.join(a, b)] for two components: an absolute [b] replaces
    [a]; otherwise [b] is appended, after a separator unless [a] is empty
    or already ends with one. *)
Definition join (a b : string) : string :=
  if startswith b "/" then b
  else if String.eqb a "" || endswith a "/" then a ++ b
  else a ++ "/" ++ b.

(** [posixpath.basename(p)]: what follows the last separator. *)
Fixpoint basename_from (acc p : string) : string :=
  match p with
  | EmptyString => acc
  | String c p' =>
      if Ascii.eqb c "/" then basename_from "" p'
      else basename_from (acc ++ String c "") p'
  end.

Definition basename (p : string) : string := basename_from "" p.

(** A path without its trailing separators. *)
Fixpoint rstrip_sep (p : string) : string :=
  match p with
  | EmptyString => EmptyString
  | String c p' =>
      if Ascii.eqb c "/" && String.eqb (rstrip_sep p') "" then ""
      else String c (rstrip_sep p')
  end.

(** The name of the directory at a path: the last component of the path,
    trailing separators apart. *)
Definition dir_name (p : string) : string := basename (rstrip_sep p).

(** Whether a name holds a path separator; the names of directory
    entries do not. *)
Fixpoint has_sep (s : string) : bool :=
  match s with
  | EmptyString => false
  | String c s' => Ascii.eqb c "/" || has_sep s'
  end.

End Py.

(** ** Bytes and text decoding *)

Definition bytes := list Byte.byte.

(** Text-mode reading translates line endings ([newline=None]): a carriage
    return, alone or followed by a line feed, becomes one line feed. *)
Fixpoint universal_newlines (s : string) : string :=
  match s with
  | EmptyString => EmptyString
  | String c s' =>
      if Ascii.eqb c "013" then
        match s' with
        | String c' s'' =>
            if Ascii.eqb c' "010" then String "010" (universal_newlines s'')
            else String "010" (universal_newlines s')
        | EmptyString => String "010" EmptyString
        end
      else String c (universal_newlines s')
  end.

(** Two codecs whose code points fit a [string] character. *)
Definition latin1_codec (b : bytes) : option string :=
  Some (string_of_list_byte b).

Definition is_ascii_byte (x : Byte.byte) : bool := (Byte.to_N x <? 128)%N.

Definition ascii_codec (b : bytes) : option string :=
  if forallb is_ascii_byte b then Some (string_of_list_byte b) else None.

(** What [fp.read()] returns on a text-mode handle under a given codec. *)
Definition text_read (codec : bytes -> option string) (b : bytes) : option string :=
  universal_newlines <$> codec b.

(** ** The operating system: directory walks and files *)

(** A file on disk either has bytes that can be read, or opening it is
    refused ([PermissionError]).  A path absent from the disk map raises
    [FileNotFoundError]. *)
Inductive file : Type :=
| Readable (content : bytes)
| Denied.

(** One item [(root, folder, file_names)] of [os.walk]: the path of a
    directory, the names of its sub-directories and the names of its other
    entries. *)
Record walk_entry : Type := WalkEntry {
  w_root : string;
  w_dirs : list string;
  w_files : list string
}.

(** A directory tree: the names of the files of a directory, and its
    sub-directories by name. *)
Inductive tree : Type :=
| Tree (files : list string) (dirs : list (string * tree)).

(** [os.walk(top)] on a tree, top-down: the item of the directory itself,
    then the walks of its sub-directories, in order. *)
Fixpoint walk_tree (top : string) (t : tree) : list walk_entry :=
  match t with
  | Tree files dirs =>
      WalkEntry top (map fst dirs) files ::
      (fix walk_dirs (ds : list (string * tree)) : list walk_entry :=
         match ds with
         | [] => []
         | (name, sub) :: ds' =>
             walk_tree (Py.join top name) sub ++ walk_dirs ds'
         end) dirs
  end.


(** Every file of a tree with the name of the directory that holds it,
    for a tree whose top directory is named [dir_name]. *)
Fixpoint labelled (dir_name : string) (t : tree) : list (string * string) :=
  match t with
  | Tree files dirs =>
      map (pair dir_name) files ++
      (fix labelled_dirs (ds : list (string * tree)) : list (string * string) :=
         match ds with
         | [] => []
         | (name, sub) :: ds' => labelled name sub ++ labelled_dirs ds'
         end) dirs
  end.

(** Every directory of the tree has a name, without a separator in it. *)
Fixpoint well_named (t : tree) : bool :=
  match t with
  | Tree _ dirs =>
      (fix all_dirs (ds : list (string * tree)) : bool :=
         match ds with
         | [] => true
         | (name, sub) :: ds' =>
             negb (String.eqb name "") && negb (Py.has_sep name) &&
             well_named sub && all_dirs ds'
         end) dirs
  end.

(** What a loader sees of the operating system: whether a path is a
    directory that can be listed, the items [os.walk] yields from a root (none
    when the root cannot be listed, as [os.walk] ignores that error), and the
    files by path. *)
Record os_state : Type := OS {
  os_isdir : string -> bool;
  os_walk : string -> list walk_entry;
  os_disk : gmap string file
}.

(** ** Exceptions, events and the loader monad *)

(** The exceptions of the Python run-time that a loader meets, and
    [RootNotFound], the fatal error kind that the spec gives the Corpus
    Loader for a root that is missing or cannot be read. *)
Inductive exn : Type :=
| UnicodeDecodeError (path : string)
| FileNotFoundError (path : string)
| PermissionError (path : string)
| RootNotFound (root : string).

(** Modelled from the spec: the two error kinds of the Corpus Loader that
    cost one file only, FileDecodeFailure and FileReadFailure; the code that
    would define them is in the absent [utils/load.py]. *)
Inductive skip_reason : Type :=
| DecodeFailure
| ReadFailure.

(** What a load does to the outside: it opens, reads and closes files,
    and the Corpus Loader of the spec reports the files that it skips, by
    name and reason. *)
Inductive event : Type :=
| EvOpen (path : string)
| EvRead (path : string)
| EvClose (path : string)
| EvSkipped (file_name : string) (why : skip_reason).

Inductive result (A : Type) : Type :=
| Ok (a : A)
| Raise (e : exn).
Arguments Ok {A} a.
Arguments Raise {A} e.

(** A computation logs the events it performs and ends with a value or
    with an exception. *)
Definition M (A : Type) : Type := (list event * result A)%type.

Definition ret {A} (a : A) : M A := ([], Ok a).

Definition raise {A} (e : exn) : M A := ([], Raise e).

Definition emit (e : event) : M unit := ([e], Ok tt).

Definition bind {A B} (m : M A) (k : A -> M B) : M B :=
  match m with
  | (l, Ok a) => let '(l', r) := k a in (l ++ l', r)
  | (l, Raise e) => (l, Raise e)
  end.

(** [try: m finally: c], for a clean-up [c] that cannot fail. *)
Definition finally {A} (m : M A) (c : list event) : M A :=
  (fst m ++ c, snd m).

(** [try: m except Exception as e: h e]. *)
Definition catch {A} (m : M A) (h : exn -> M A) : M A :=
  match m with
  | (l, Ok a) => (l, Ok a)
  | (l, Raise e) => let '(l', r) := h e in (l ++ l', r)
  end.

Declare Scope loader_scope.
Delimit Scope loader_scope with loader.
Notation "x <- c ;; k" := (bind c (fun x => k))
  (at level 100, c at next level, right associativity) : loader_scope.
Notation "c ;;; k" := (bind c (fun _ => k))
  (at level 100, right associativity) : loader_scope.
Local Open Scope loader_scope.

(** [for x in xs: s = body x s], stopping at the first exception. *)
Fixpoint for_each {A S} (xs : list A) (body : A -> S -> M S) (s : S) : M S :=
  match xs with
  | [] => ret s
  | x :: xs' => s' <- body x s ;; for_each xs' body s'
  end.

Definition log_of {A} (m : M A) : list event := fst m.
Definition outcome_of {A} (m : M A) : result A := snd m.

(** A text-mode file handle: the path it was opened on and the bytes
    behind it. *)
Record handle : Type := Handle { h_path : string; h_bytes : bytes }.

(** [file_name.endswith('.txt')] *)
Definition is_text_file (file_name : string) : bool :=
  Py.endswith file_name ".txt".

(** [with open(path, 'r') as fp: body fp]: the handle is closed when the
    body is left, by return or by exception. *)
Definition with_open {A} (disk : gmap string file) (path : string)
    (body : handle -> M A) : M A :=
  match disk !! path with
  | None => raise (FileNotFoundError path)
  | Some Denied => raise (PermissionError path)
  | Some (Readable b) =>
      emit (EvOpen path) ;;;
      finally (body (Handle path b)) [EvClose path]
  end.

Section Loaders.

(** The platform's default text encoding, as [open(path, 'r')] uses it. *)
Variable default_codec : bytes -> option string.

(** [fp.read()]: the whole content, decoded. *)
Definition read (fp : handle) : M string :=
  emit (EvRead (h_path fp)) ;;;
  match text_read default_codec (h_bytes fp) with
  | Some s => ret s
  | None => raise (UnicodeDecodeError (h_path fp))
  end.

(** The notebook's loader. *)
Definition read_files_from_folder (os : os_state) (root_folder : string)
    : M (list string) :=
  for_each (os_walk os root_folder) (fun entry contents =>
    for_each (w_files entry) (fun file_name contents =>
      if is_text_file file_name then
        let file_path := Py.join (w_root entry) file_name in
        with_open (os_disk os) file_path (fun fp =>
          s <- read fp ;;
          ret (contents ++ [s]))
      else ret contents) contents) [].

End Loaders.

(** ** The files of a walk *)

(** Every file of a walk, with the directory that lists it, in the order
    of the walk. *)
Definition listing (walk : list walk_entry) : list (string * string) :=
  flat_map (fun entry => map (pair (w_root entry)) (w_files entry)) walk.

(** The files a loader selects, given its test on the file name. *)
Definition selected (keep : string -> bool) (walk : list walk_entry)
    : list (string * string) :=
  List.filter (fun rn => keep (snd rn)) (listing walk).

Definition path_of (rn : string * string) : string := Py.join (fst rn) (snd rn).

(** ** The [TextFiles] corpus loader *)

(** What the Corpus Loader gets out of one file: its text, or a reason to
    skip it. *)
Inductive loaded : Type :=
| Text (s : string)
| Skip (why : skip_reason).


Module TextFiles.

(** Modelled from the spec: the record that the loader of [utils/load.py]
    returns for one file; the notebook shows no code of it.  A Document is a
    dictionary that holds the raw text, the category and the file name.
    (The prose of the notebook calls the category key [category_1] and
    names no key for the file name; the keys here are the spec's.) *)
Definition document (raw_content category file_name : string)
    : gmap string string :=
  <["raw_content" := raw_content]>
    (<["category" := category]>
      (<["file_name" := file_name]> ∅)).

Section Loader.

Variable default_codec : bytes -> option string.

(** Modelled from the spec: the statistical encoding detection that step
    3 relies on, an outside service taken as parameters: for the bytes of a
    file, the candidate encodings, each with a confidence in percent; the
    codec of each encoding; and the least confidence that the loader
    accepts. *)
Context {encoding : Type}.
Variable detect : bytes -> list (encoding * nat).
Variable decode_with : encoding -> bytes -> option string.
Variable threshold : nat.

(** Modelled from the spec: selection of the most probable encoding among
    the detector's candidates (the first of the best ones), part of the
    absent [utils/load.py]. *)
Fixpoint most_probable (candidates : list (encoding * nat))
    : option (encoding * nat) :=
  match candidates with
  | [] => None
  | c :: rest =>
      match most_probable rest with
      | Some c' => if (snd c <? snd c')%nat then Some c' else Some c
      | None => Some c
      end
  end.

(** Modelled from the spec: the fall-back of step 3, of the absent
    [utils/load.py]: detect over the bytes, keep the most probable encoding
    if its confidence reaches the threshold, and decode all the bytes
    again with it. *)
Definition redecode (b : bytes) : option string :=
  match most_probable (detect b) with
  | Some (enc, confidence) =>
      if (threshold <=? confidence)%nat then decode_with enc b else None
  | None => None
  end.

(** Modelled from the spec: steps 2 and 3 for one file, of the absent
    [utils/load.py].  The file is read under the default encoding; a
    decoding failure is repaired by detection or the file is skipped and
    reported; a failure to open the file is reported and the file
    skipped. *)
Definition load_file (disk : gmap string file) (path file_name : string)
    : M (option string) :=
  catch
    (with_open disk path (fun fp =>
       catch (s <- read default_codec fp ;; ret (Some s))
         (fun _ =>
            match redecode (h_bytes fp) with
            | Some s => ret (Some s)
            | None => emit (EvSkipped file_name DecodeFailure) ;;; ret None
            end)))
    (fun _ => emit (EvSkipped file_name ReadFailure) ;;; ret None).

(** Modelled from the spec: the test of steps 1 and 2 on a file name, of
    the absent [utils/load.py]: the text-file extension, and not in the
    ignored set. *)
Definition wanted (ignored_files : gset string) (file_name : string) : bool :=
  is_text_file file_name && negb (bool_decide (file_name ∈ ignored_files)).

(** Modelled from the spec: the corpus load operation
    [TextFiles.read_folder_with_categories] of [utils/load.py], which the
    notebook calls and describes without showing its code: steps 1 to 5 of
    the Corpus Loader, and the fatal error on a root that is missing.  The
    set of ignored file names, an argument of the [TextFiles] constructor in
    the notebook, is an argument here. *)
Definition read_folder_with_categories (ignored_files : gset string)
    (os : os_state) (root_folder : string) : M (list (gmap string string)) :=
  if os_isdir os root_folder then
    for_each (os_walk os root_folder) (fun entry corpus =>
      for_each (w_files entry) (fun file_name corpus =>
        if wanted ignored_files file_name then
          text <- load_file (os_disk os)
                    (Py.join (w_root entry) file_name) file_name ;;
          match text with
          | Some raw_content =>
              ret (corpus ++ [document raw_content
                                (Py.dir_name (w_root entry)) file_name])
          | None => ret corpus
          end
        else ret corpus) corpus) []
  else raise (RootNotFound root_folder).

(** *** Vocabulary of the statements about the loader *)

(** The text that the default encoding, or else detection, gives for the
    bytes of a file. *)
Definition decode_bytes (b : bytes) : option string :=
  match text_read default_codec b with
  | Some s => Some s
  | None => redecode b
  end.

Definition load_result (disk : gmap string file) (path : string) : loaded :=
  match disk !! path with
  | Some (Readable b) =>
      match decode_bytes b with
      | Some s => Text s
      | None => Skip DecodeFailure
      end
  | Some Denied | None => Skip ReadFailure
  end.

(** The Document of a listed file, if it loads; the report, if not. *)
Definition document_of (disk : gmap string file) (rn : string * string)
    : option (gmap string string) :=
  match load_result disk (path_of rn) with
  | Text s => Some (document s (Py.dir_name (fst rn)) (snd rn))
  | Skip _ => None
  end.

Definition skip_of (disk : gmap string file) (rn : string * string)
    : option (string * skip_reason) :=
  match load_result disk (path_of rn) with
  | Text _ => None
  | Skip why => Some (snd rn, why)
  end.

(** The body of the loop of the loader for one wanted file. *)
Definition load_one (disk : gmap string file) (rn : string * string)
    (corpus : list (gmap string string)) : M (list (gmap string string)) :=
  text <- load_file disk (path_of rn) (snd rn) ;;
  match text with
  | Some raw_content =>
      ret (corpus ++ [document raw_content (Py.dir_name (fst rn)) (snd rn)])
  | None => ret corpus
  end.




End Loader.

End TextFiles.

(** ** Vocabulary of the statements *)

(** What opening and reading the file at a path gives, and the events
    that doing so logs. *)
Definition file_text (codec : bytes -> option string)
    (disk : gmap string file) (path : string) : result string :=
  match disk !! path with
  | None => Raise (FileNotFoundError path)
  | Some Denied => Raise (PermissionError path)
  | Some (Readable b) =>
      match text_read codec b with
      | Some s => Ok s
      | None => Raise (UnicodeDecodeError path)
      end
  end.

Definition file_log (disk : gmap string file) (path : string) : list event :=
  match disk !! path with
  | Some (Readable _) => [EvOpen path; EvRead path; EvClose path]
  | _ => []
  end.

(** The body of the loop of [read_files_from_folder] for one text file. *)
Definition read_one (codec : bytes -> option string)
    (disk : gmap string file) (rn : string * string) (contents : list string)
    : M (list string) :=
  with_open disk (path_of rn) (fun fp =>
    s <- read codec fp ;;
    ret (contents ++ [s])).

(** The paths a log opens, and the paths it reads, in order. *)
Definition opened_paths (l : list event) : list string :=
  omap (fun e => match e with EvOpen p => Some p | _ => None end) l.


Definition skipped_files (l : list event) : list (string * skip_reason) :=
  omap (fun e => match e with EvSkipped n why => Some (n, why) | _ => None end) l.

(** The events of a log that touch a file. *)
Definition file_events (l : list event) : list event :=
  List.filter (fun e => match e with EvSkipped _ _ => false | _ => true end) l.

(** A log in which every file is opened, read and closed before the next
    one is opened. *)
Inductive sequential : list event -> Prop :=
| sequential_nil : sequential []
| sequential_file (p : string) (l : list event) :
    sequential l ->
    sequential (EvOpen p :: EvRead p :: EvClose p :: l).

(** The handles that are open after a log, most recent first. *)
Definition step_handles (hs : list string) (e : event) : list string :=
  match e with
  | EvOpen p => p :: hs
  | EvClose p => List.remove string_dec p hs
  | _ => hs
  end.

Definition handles_after (l : list event) : list string :=
  fold_left step_handles l [].

(** ** Sample file systems *)

Definition bytes_of (s : string) : bytes := list_byte_of_string s.

(** A corpus in the layout of the BBC data set: one directory per
    category.  [tech/001.txt] holds a pound sign in Latin-1 (byte [0xa3]),
    [tech/002.txt] cannot be opened, and [tech/003.txt] is a dangling
    link: listed, but with no file behind it. *)
Definition sample_walk : list walk_entry :=
  [WalkEntry "bbc_news" ["business"; "tech"] ["README.TXT"];
   WalkEntry "bbc_news/business" [] ["001.txt"; "002.txt"; "notes.md"];
   WalkEntry "bbc_news/tech" [] ["001.txt"; "002.txt"; "003.txt"]].

Definition sample_tree : tree :=
  Tree ["README.TXT"]
    [("business", Tree ["001.txt"; "002.txt"; "notes.md"] []);
     ("tech", Tree ["001.txt"; "002.txt"; "003.txt"] [])].

Definition sample_disk : gmap string file :=
  list_to_map
    [("bbc_news/README.TXT", Readable (bytes_of "BBC data set"));
     ("bbc_news/business/001.txt", Readable (bytes_of "Ad sales boost"));
     ("bbc_news/business/002.txt",
        Readable (bytes_of "Dollar gains" ++ [x0d; x0a] ++ bytes_of "on"));
     ("bbc_news/business/notes.md", Denied);
     ("bbc_news/tech/001.txt",
        Readable (bytes_of "cost " ++ [xa3] ++ bytes_of "5"));
     ("bbc_news/tech/002.txt", Denied)].

Definition walk_from (root : string) (walk : list walk_entry)
    (r : string) : list walk_entry :=
  if String.eqb r root then walk else [].

Definition sample_os : os_state :=
  OS (String.eqb "bbc_news") (walk_from "bbc_news" sample_walk) sample_disk.

(** The business category alone: every text file decodes. *)
Definition business_os : os_state :=
  OS (String.eqb "bbc_news/business")
     (walk_from "bbc_news/business"
        [WalkEntry "bbc_news/business" [] ["001.txt"; "002.txt"; "notes.md"]])
     sample_disk.

(** The same directories after the files that are not text files have
    changed. *)
Definition business_os_later : os_state :=
  OS (String.eqb "bbc_news/business")
     (walk_from "bbc_news/business"
        [WalkEntry "bbc_news/business" [] ["001.txt"; "002.txt"; "notes.md"]])
     (<["bbc_news/business/notes.md" := Readable (bytes_of "to do")]>
        (delete "bbc_news/README.TXT" sample_disk)).

(** A directory tree without any text file. *)
Definition notes_os : os_state :=
  OS (String.eqb "notes")
     (walk_from "notes"
        [WalkEntry "notes" ["old"] ["README.md"; "txt"];
         WalkEntry "notes/old" [] ["a.TXT"]])
     ({["notes/README.md" := Readable (bytes_of "nothing here")]}).

(** A detector for two encodings. *)
Inductive charset : Type := CsAscii | CsLatin1.

Definition codec_of (c : charset) : bytes -> option string :=
  match c with
  | CsAscii => ascii_codec
  | CsLatin1 => latin1_codec
  end.

Definition sample_detect (b : bytes) : list (charset * nat) :=
  if forallb is_ascii_byte b then [(CsAscii, 100)]
  else [(CsAscii, 0); (CsLatin1, 73)].

(** The loader of [TextFiles] on the sample corpus, with ASCII as the
    default encoding and the sample detector. *)
Definition sample_load (threshold : nat) (ignored_files : gset string)
    : M (list (gmap string string)) :=
  TextFiles.read_folder_with_categories ascii_codec sample_detect codec_of
    threshold ignored_files sample_os "bbc_news".

(** What it returns when Latin-1 at confidence 73 is accepted and nothing
    is ignored, and when it is refused and [002.txt] is ignored. *)
Definition lenient_corpus : list (gmap string string) :=
  [TextFiles.document "Ad sales boost" "business" "001.txt";
   TextFiles.document ("Dollar gains" ++ String "010" "on") "business" "002.txt";
   TextFiles.document ("cost " ++ String "163" "5") "tech" "001.txt"].

Definition strict_corpus : list (gmap string string) :=
  [TextFiles.document "Ad sales boost" "business" "001.txt"].

(** ** The other cells of the notebook *)

(** *** One article, read directly *)

(** [with open(path, 'r') as fp: raw_data = fp.read()], the cell that shows
    the first business article. *)
Definition read_text_file (codec : bytes -> option string)
    (disk : gmap string file) (path : string) : M string :=
  with_open disk path (fun fp => read codec fp).

Definition first_article (codec : bytes -> option string) (os : os_state)
    : M string :=
  read_text_file codec (os_disk os) "bbc_news/business/001.txt".

(** *** Stop words and the table of stems *)

(** [filter(lambda t: t not in stop_words, tokens)] *)
Definition without_stop_words (stop_words : gset string)
    (tokens : list string) : list string :=
  List.filter (fun t => negb (bool_decide (t ∈ stop_words))) tokens.

(** [tokens_no_stop_words = filter(lambda t: t not in stop_words, tokens)];
    the cell displays [list(tokens_no_stop_words)[:10]]. *)
Definition tokens_no_stop_words (stop_words : gset string)
    (tokens : list string) : list string :=
  without_stop_words stop_words tokens.

(** [word_list = filter(lambda t: t not in stop_words, tokens[:20])] *)
Definition word_list (stop_words : gset string) (tokens : list string)
    : list string :=
  without_stop_words stop_words (firstn 20 tokens).

Fixpoint spaces (n : nat) : string :=
  match n with
  | O => ""
  | S n' => String " " (spaces n')
  end.

(** A string under the format [{:20}]: padded with spaces on the right up
    to the width, never cut. *)
Definition ljust (width : nat) (s : string) : string :=
  s ++ spaces (width - String.length s).

(** ["{0:20}{1:20}{2:20}{3:20}{4:20}".format(a, b, c, d, e)] *)
Definition table_row (a b c d e : string) : string :=
  ljust 20 a ++ ljust 20 b ++ ljust 20 c ++ ljust 20 d ++ ljust 20 e.

(** The lines that the cell of the stemmers prints: the header, then one
    row per word of [word_list].  The stemmers and the lemmatizer are
    NLTK's and are taken as functions. *)
Definition stem_table (porter_stem lancaster_stem lemmatize lemmatize_v :
                         string -> string)
    (stop_words : gset string) (tokens : list string) : list string :=
  table_row "Word" "Porter Stemmer" "Lancaster Stemmer" "Lemmatizer"
    "Lemm pos=v" ::
  map (fun word =>
         table_row word (porter_stem word) (lancaster_stem word)
           (lemmatize word) (lemmatize_v word))
    (word_list stop_words tokens).

(** *** Articles: tokens, tagged documents and embeddings *)

Inductive py_error : Type :=
| KeyError (key : string).

Inductive outcome (A : Type) : Type :=
| Returned (a : A)
| Raised (e : py_error).
Arguments Returned {A} a.
Arguments Raised {A} e.

(** [f'article_{idx}'] *)
Definition article_tag (idx : nat) : string := "article_" ++ pretty idx.

Section Articles.

(** The document vectors of gensim, whatever their numbers are. *)
Variable vec : Type.

(** What the dictionary of an article holds: text, tokens or a vector. *)
Inductive value : Type :=
| VStr (s : string)
| VTokens (l : list string)
| VVec (v : vec).

(** [list(x)]: the characters of a string, the items of a list or of a
    vector. *)
Definition py_list (x : value) : value :=
  match x with
  | VStr s => VTokens (map (fun c => String c "") (list_ascii_of_string s))
  | VTokens l => VTokens l
  | VVec v => VVec v
  end.

(** [TaggedDocument(words, tags)], gensim's named pair. *)
Record TaggedDocument : Type := Tagged {
  words : value;
  tags : list string
}.

(** [for article in raw_data:
       article['tokens'] = process_text(article['raw_content'])]:
    the articles as the loop leaves them, and the error that stopped it,
    if any.  The dictionaries are updated in place, so the articles before
    one that has no raw content keep their tokens.  [process_text], the
    function that the notebook leaves to its reader, is taken as a function
    that returns. *)
Fixpoint add_tokens (process_text : value -> value)
    (raw_data : list (gmap string value))
    : list (gmap string value) * option py_error :=
  match raw_data with
  | [] => ([], None)
  | article :: rest =>
      match article !! "raw_content" with
      | Some raw_content =>
          let '(rest', err) := add_tokens process_text rest in
          (<["tokens" := process_text raw_content]> article :: rest', err)
      | None => (article :: rest, Some (KeyError "raw_content"))
      end
  end.

(** What the loop of the tokens makes of one article. *)
Definition tokenised (process_text : value -> value)
    (article article' : gmap string value) : Prop :=
  exists raw_content,
    article !! "raw_content" = Some raw_content /\
    article' = <["tokens" := process_text raw_content]> article.

(** [[TaggedDocument(list(elnt['tokens']), [f'article_{idx}'])
      for idx, elnt in enumerate(raw_data)]], counting from [idx]. *)
Fixpoint tagged_from (idx : nat) (raw_data : list (gmap string value))
    : outcome (list TaggedDocument) :=
  match raw_data with
  | [] => Returned []
  | elnt :: rest =>
      match elnt !! "tokens" with
      | Some tokens =>
          match tagged_from (S idx) rest with
          | Returned docs =>
              Returned (Tagged (py_list tokens) [article_tag idx] :: docs)
          | Raised e => Raised e
          end
      | None => Raised (KeyError "tokens")
      end
  end.

Definition tagged_documents (raw_data : list (gmap string value))
    : outcome (list TaggedDocument) :=
  tagged_from 0 raw_data.

(** [for idx, article in enumerate(raw_data):
       article['embeddings'] = doc2vec_model.docvecs[f'article_{idx}']],
    counting from [idx]; [docvecs] maps the tags of the trained model to
    their vectors and raises [KeyError] on another tag. *)
Fixpoint add_embeddings_from (idx : nat) (docvecs : gmap string vec)
    (raw_data : list (gmap string value))
    : list (gmap string value) * option py_error :=
  match raw_data with
  | [] => ([], None)
  | article :: rest =>
      match docvecs !! article_tag idx with
      | Some v =>
          let '(rest', err) := add_embeddings_from (S idx) docvecs rest in
          (<["embeddings" := VVec v]> article :: rest', err)
      | None => (article :: rest, Some (KeyError (article_tag idx)))
      end
  end.

Definition add_embeddings (docvecs : gmap string vec)
    (raw_data : list (gmap string value))
    : list (gmap string value) * option py_error :=
  add_embeddings_from 0 docvecs raw_data.

End Articles.

Arguments VStr {vec} s.
Arguments VTokens {vec} l.
Arguments VVec {vec} v.
Arguments Tagged {vec} words tags.
Arguments words {vec} t.
Arguments tags {vec} t.
Arguments py_list {vec} x.
Arguments add_tokens {vec} process_text raw_data.
Arguments tagged_from {vec} idx raw_data.
Arguments tagged_documents {vec} raw_data.
Arguments add_embeddings_from {vec} idx docvecs raw_data.
Arguments add_embeddings {vec} docvecs raw_data.

(** *** More sample data *)

(** A corpus of two categories in which every text file decodes. *)
Definition news_tree : tree :=
  Tree ["LICENSE"]
    [("business", Tree ["001.txt"; "notes.md"] []);
     ("sport", Tree ["001.txt"; "002.txt"] [])].

Definition news_disk : gmap string file :=
  list_to_map
    [("news/LICENSE", Readable (bytes_of "free"));
     ("news/business/001.txt", Readable (bytes_of "Ad sales boost"));
     ("news/business/notes.md", Denied);
     ("news/sport/001.txt", Readable (bytes_of "Claxton hunting first"));
     ("news/sport/002.txt", Readable (bytes_of "O'Sullivan could run"))].

Definition news_os : os_state :=
  OS (String.prefix "news")
     (fun r =>
        if String.eqb r "news" then walk_tree "news" news_tree
        else if String.eqb r "news/business" then
          walk_tree "news/business" (Tree ["001.txt"; "notes.md"] [])
        else if String.eqb r "news/sport" then
          walk_tree "news/sport" (Tree ["001.txt"; "002.txt"] [])
        else [])
     news_disk.

(** Two articles as the loader of [TextFiles] leaves them, and one without
    its raw content. *)
Definition sample_articles : list (gmap string (value unit)) :=
  [<["raw_content" := VStr "Ad sales boost"]> {["category" := VStr "business"]};
   <["raw_content" := VStr "Claxton hunting first"]> {["category" := VStr "sport"]}].

Definition broken_articles : list (gmap string (value unit)) :=
  [<["raw_content" := VStr "Ad sales boost"]> {["category" := VStr "business"]};
   {["category" := VStr "sport"]};
   <["raw_content" := VStr "Claxton hunting first"]> {["category" := VStr "sport"]}].

(** A tokenizer for the samples: the words between spaces. *)
Definition sample_process_text (x : value unit) : value unit :=
  match x with
  | VStr s => VTokens (String.words s)
  | other => other
  end.

Definition sample_docvecs : gmap string unit :=
  list_to_map [("article_0", tt); ("article_1", tt)].

Definition sample_tokenised : list (gmap string (value unit)) :=
  fst (add_tokens sample_process_text sample_articles).

Definition sample_docs : list (TaggedDocument unit) :=
  [Tagged (VTokens ["Ad"; "sales"; "boost"]) ["article_0"];
   Tagged (VTokens ["Claxton"; "hunting"; "first"]) ["article_1"]].

(** The first tokens of the example text of the notebook, a few stop
    words, and a stemmer that only cuts a final [s]. *)
Definition sample_tokens : list string :=
  ["timewarner"; "is"; "to"; "restate"; "its"; "accounts"; "as"; "part";
   "of"; "efforts"; "to"; "resolve"; "an"; "inquiry"; "into"; "aol"; "by";
   "us"; "market"; "regulators"; "it"; "has"; "already"; "offered"].

Definition sample_stop_words : gset string :=
  list_to_set ["is"; "to"; "its"; "as"; "of"; "an"; "into"; "by"; "it"; "has"].

Definition cut_final_s (w : string) : string :=
  if Py.endswith w "s"
  then String.substring 0 (String.length w - 1) w
  else w.

(** * Properties *)

(** ** Paths *)

Lemma append_nil_l (s : string) : ("" ++ s)%string = s.
Proof. reflexivity. Qed.

Lemma append_cons (c : ascii) (s t : string) :
  (String c s ++ t)%string = String c (s ++ t)%string.
Proof. reflexivity. Qed.

Lemma append_nil_r (s : string) : (s ++ "")%string = s.
Proof.
  induction s as [| c s IH]; [reflexivity |].
  rewrite append_cons, IH. reflexivity.
Qed.

Lemma append_assoc (a b c : string) :
  ((a ++ b) ++ c)%string = (a ++ (b ++ c))%string.
Proof.
  induction a as [| x a IH]; [reflexivity |].
  rewrite !append_cons, IH. reflexivity.
Qed.

(** [endswith] is the test that the characters of the suffix end the
    string. *)
Lemma endswith_spec (s suffix : string) :
  Py.endswith s suffix = true <-> exists pre, s = (pre ++ suffix)%string.
Proof.
  induction s as [| c s IH]; cbn [Py.endswith].
  - rewrite orb_false_r, String.eqb_eq. split.
    + intros <-. exists "". reflexivity.
    + intros ([| c pre] & Hpre); [exact Hpre |].
      rewrite append_cons in Hpre. discriminate Hpre.
  - rewrite orb_true_iff, String.eqb_eq, IH. split.
    + intros [<- | (pre & ->)]; [exists ""; reflexivity |].
      exists (String c pre). reflexivity.
    + intros ([| c' pre] & Hpre); [left; exact Hpre |].
      rewrite append_cons in Hpre. injection Hpre as <- ->.
      right. exists pre. reflexivity.
Qed.

Lemma basename_from_no_sep (acc n : string) :
  Py.has_sep n = false -> Py.basename_from acc n = (acc ++ n)%string.
Proof.
  revert acc. induction n as [| c n IH]; intros acc;
    cbn [Py.basename_from Py.has_sep].
  - intros _. symmetry. apply append_nil_r.
  - intros Hsep. apply orb_false_iff in Hsep as [Hc Hn]. rewrite Hc.
    rewrite (IH _ Hn), append_assoc. reflexivity.
Qed.

Lemma basename_from_sep (acc a n : string) :
  Py.has_sep n = false ->
  Py.basename_from acc (a ++ String "/" n) = n.
Proof.
  intros Hn. revert acc. induction a as [| c a IH]; intros acc.
  - rewrite append_nil_l. cbn [Py.basename_from]. rewrite Ascii.eqb_refl.
    apply (basename_from_no_sep "" n Hn).
  - rewrite append_cons. cbn [Py.basename_from].
    destruct (Ascii.eqb c "/"); apply IH.
Qed.

(** The last component of the path of a sub-directory is its name. *)
Lemma basename_join (top name : string) :
  Py.has_sep name = false -> Py.basename (Py.join top name) = name.
Proof.
  intros Hn. unfold Py.basename, Py.join, Py.startswith.
  assert (Hstart : String.prefix "/" name = false).
  { destruct name as [| c name]; [reflexivity |].
    cbn [Py.has_sep] in Hn. apply orb_false_iff in Hn as [Hc _].
    cbn [String.prefix].
    destruct (ascii_dec "/" c) as [<- | _]; [discriminate Hc | reflexivity]. }
  rewrite Hstart.
  destruct (String.eqb_spec top "") as [-> | _]; cbn [orb].
  - rewrite append_nil_l. apply (basename_from_no_sep "" name Hn).
  - destruct (Py.endswith top "/") eqn:Hend.
    + apply endswith_spec in Hend as (pre & ->).
      rewrite append_assoc, append_cons, append_nil_l.
      apply basename_from_sep. exact Hn.
    + rewrite append_cons, append_nil_l.
      apply basename_from_sep. exact Hn.
Qed.

Lemma rstrip_sep_no_sep (n : string) :
  Py.has_sep n = false -> Py.rstrip_sep n = n.
Proof.
  induction n as [| c n IH]; cbn [Py.has_sep Py.rstrip_sep]; [reflexivity |].
  intros Hsep. apply orb_false_iff in Hsep as [Hc Hn].
  rewrite Hc, (IH Hn). reflexivity.
Qed.

Lemma append_not_nil (a n : string) : n <> "" -> (a ++ n)%string <> "".
Proof.
  intros Hn. destruct a as [| c a]; [exact Hn |].
  rewrite append_cons. discriminate.
Qed.

(** A path that ends with a name has no trailing separator. *)
Lemma rstrip_sep_app (a n : string) :
  Py.has_sep n = false -> n <> "" ->
  Py.rstrip_sep (a ++ n) = (a ++ n)%string.
Proof.
  intros Hsep Hn. induction a as [| c a IH].
  - rewrite append_nil_l. apply rstrip_sep_no_sep. exact Hsep.
  - rewrite append_cons. cbn [Py.rstrip_sep]. rewrite IH.
    apply (append_not_nil a) in Hn. apply String.eqb_neq in Hn.
    rewrite Hn, andb_false_r. reflexivity.
Qed.

(** The name of a sub-directory is the name of the directory at its
    path. *)
Lemma dir_name_join (top name : string) :
  Py.has_sep name = false -> name <> "" ->
  Py.dir_name (Py.join top name) = name.
Proof.
  intros Hsep Hn. unfold Py.dir_name.
  assert (Hstrip : Py.rstrip_sep (Py.join top name) = Py.join top name).
  { unfold Py.join, Py.startswith.
    assert (Hstart : String.prefix "/" name = false).
    { destruct name as [| c name]; [reflexivity |].
      cbn [Py.has_sep] in Hsep. apply orb_false_iff in Hsep as [Hc _].
      cbn [String.prefix].
      destruct (ascii_dec "/" c) as [<- | _]; [discriminate Hc | reflexivity]. }
    rewrite Hstart.
    destruct (String.eqb top "" || Py.endswith top "/").
    - apply rstrip_sep_app; assumption.
    - rewrite <- append_assoc. apply rstrip_sep_app; assumption. }
  rewrite Hstrip. apply basename_join. exact Hsep.
Qed.

(** ** Directory trees *)

Lemma tree_ind_nested (P : tree -> Prop) :
  (forall files dirs, Forall (fun d => P (snd d)) dirs -> P (Tree files dirs)) ->
  forall t, P t.
Proof.
  intros Hstep. fix IH 1. intros [files dirs]. apply Hstep.
  induction dirs as [| [name sub] dirs IHdirs]; constructor.
  - apply IH.
  - exact IHdirs.
Qed.

Lemma walk_tree_eq (top : string) (files : list string)
    (dirs : list (string * tree)) :
  walk_tree top (Tree files dirs) =
  WalkEntry top (map fst dirs) files ::
  flat_map (fun d => walk_tree (Py.join top (fst d)) (snd d)) dirs.
Proof.
  cbn [walk_tree]. f_equal.
  induction dirs as [| [name sub] dirs IH]; cbn [flat_map fst snd];
    [reflexivity | rewrite IH; reflexivity].
Qed.

Lemma labelled_eq (dir_name : string) (files : list string)
    (dirs : list (string * tree)) :
  labelled dir_name (Tree files dirs) =
  map (pair dir_name) files ++ flat_map (fun d => labelled (fst d) (snd d)) dirs.
Proof.
  cbn [labelled]. f_equal.
  induction dirs as [| [name sub] dirs IH]; cbn [flat_map fst snd];
    [reflexivity | rewrite IH; reflexivity].
Qed.

Lemma well_named_eq (files : list string) (dirs : list (string * tree)) :
  well_named (Tree files dirs) =
  forallb (fun d => negb (String.eqb (fst d) "") && negb (Py.has_sep (fst d)) &&
                    well_named (snd d)) dirs.
Proof.
  cbn [well_named].
  induction dirs as [| [name sub] dirs IH]; cbn [forallb fst snd];
    [reflexivity | rewrite IH; reflexivity].
Qed.

Lemma listing_app (w1 w2 : list walk_entry) :
  listing (w1 ++ w2) = listing w1 ++ listing w2.
Proof. unfold listing. apply flat_map_app. Qed.


(** The name computed from the path of the directory that lists a file is
    the name of the directory of the tree that holds it. *)
Lemma listing_directory_names (t : tree) :
  forall top,
    well_named t = true ->
    map (fun rn => (Py.dir_name (fst rn), snd rn)) (listing (walk_tree top t)) =
    labelled (Py.dir_name top) t.
Proof.
  induction t as [files dirs IH] using tree_ind_nested. intros top Hwn.
  rewrite walk_tree_eq, labelled_eq. rewrite well_named_eq in Hwn.
  change (listing (?e :: ?w)) with (map (pair (w_root e)) (w_files e) ++ listing w).
  cbn [w_root w_files]. rewrite map_app, map_map. cbn [fst snd]. f_equal.
  induction dirs as [| [name sub] dirs IHdirs]; [reflexivity |].
  cbn [flat_map forallb fst snd] in Hwn |- *.
  apply andb_true_iff in Hwn as [Hhead Hrest].
  apply andb_true_iff in Hhead as [Hname Hsub].
  apply andb_true_iff in Hname as [Hsome Hname].
  apply negb_true_iff in Hname. apply negb_true_iff, String.eqb_neq in Hsome.
  inversion IH as [| ? ? IHsub IHtail]; subst. cbn [snd] in IHsub.
  rewrite listing_app, map_app, (IHsub _ Hsub), (dir_name_join _ _ Hname Hsome).
  f_equal. apply IHdirs; assumption.
Qed.

Example walk_sample_tree : walk_tree "bbc_news" sample_tree = sample_walk.
Proof. reflexivity. Qed.

Example join_examples :
  Py.join "bbc_news" "tech" = "bbc_news/tech" /\
  Py.join "bbc_news/" "tech" = "bbc_news/tech" /\
  Py.join "" "tech" = "tech" /\
  Py.join "bbc_news" "/tmp" = "/tmp".
Proof. repeat split; reflexivity. Qed.

Example basename_examples :
  Py.basename "bbc_news/tech" = "tech" /\
  Py.basename "bbc_news" = "bbc_news" /\
  Py.basename "bbc_news/" = "".
Proof. repeat split; reflexivity. Qed.

Example dir_name_examples :
  Py.dir_name "bbc_news/tech" = "tech" /\
  Py.dir_name "bbc_news/" = "bbc_news" /\
  Py.dir_name "bbc_news" = "bbc_news" /\
  Py.dir_name "/" = "".
Proof. repeat split; reflexivity. Qed.

Example is_text_file_examples :
  is_text_file "001.txt" = true /\
  is_text_file ".txt" = true /\
  is_text_file "README.TXT" = false /\
  is_text_file "notes.md" = false /\
  is_text_file "txt" = false.
Proof. repeat split; reflexivity. Qed.

Example text_read_examples :
  text_read ascii_codec [] = Some "" /\
  text_read ascii_codec (bytes_of "a" ++ [x0d; x0a] ++ bytes_of "b") =
    Some ("a" ++ String "010" "b")%string /\
  text_read ascii_codec [xa3] = None /\
  text_read latin1_codec [xa3] = Some (String "163" "").
Proof. repeat split; reflexivity. Qed.

(** ** Laws of the loader monad *)

Lemma bind_ret_l {A B} (a : A) (k : A -> M B) : bind (ret a) k = k a.
Proof. unfold bind, ret. destruct (k a) as [l r]. reflexivity. Qed.

Lemma bind_ret_r {A} (m : M A) : bind m ret = m.
Proof.
  destruct m as [l [a | e]]; simpl; [| reflexivity].
  rewrite app_nil_r. reflexivity.
Qed.

Lemma bind_assoc {A B C} (m : M A) (k : A -> M B) (h : B -> M C) :
  bind (bind m k) h = bind m (fun a => bind (k a) h).
Proof.
  destruct m as [l [a | e]]; simpl; [| reflexivity].
  destruct (k a) as [l1 [b | e]]; simpl; [| reflexivity].
  destruct (h b) as [l2 r]. rewrite app_assoc. reflexivity.
Qed.

Lemma bind_raise {A B} (l : list event) (e : exn) (k : A -> M B) :
  bind (l, Raise e) k = (l, Raise e).
Proof. reflexivity. Qed.

Lemma log_of_bind {A B} (m : M A) (k : A -> M B) :
  log_of (bind m k) =
  log_of m ++ match outcome_of m with
              | Ok a => log_of (k a)
              | Raise _ => []
              end.
Proof.
  destruct m as [l [a | e]]; simpl.
  - destruct (k a) as [l' r]. reflexivity.
  - unfold log_of. simpl. rewrite app_nil_r. reflexivity.
Qed.

Lemma outcome_of_bind {A B} (m : M A) (k : A -> M B) :
  outcome_of (bind m k) =
  match outcome_of m with
  | Ok a => outcome_of (k a)
  | Raise e => Raise e
  end.
Proof.
  destruct m as [l [a | e]]; simpl; [| reflexivity].
  destruct (k a) as [l' r]. reflexivity.
Qed.

Lemma bind_ext {A B} (m : M A) (k k' : A -> M B) :
  (forall a, k a = k' a) -> bind m k = bind m k'.
Proof.
  intros Hk. destruct m as [l [a | e]]; simpl; [| reflexivity].
  rewrite Hk. reflexivity.
Qed.

(** ** Loops *)

Lemma for_each_app {A S} (xs ys : list A) (body : A -> S -> M S) (s : S) :
  for_each (xs ++ ys) body s = bind (for_each xs body s) (for_each ys body).
Proof.
  revert s. induction xs as [| x xs IH]; intros s; cbn [for_each app].
  - symmetry. apply bind_ret_l.
  - rewrite bind_assoc. apply bind_ext. intros s'. apply IH.
Qed.

Lemma for_each_map {A B S} (g : A -> B) (xs : list A)
    (body : B -> S -> M S) (s : S) :
  for_each (map g xs) body s = for_each xs (fun x => body (g x)) s.
Proof.
  revert s. induction xs as [| x xs IH]; intros s; cbn [for_each map].
  - reflexivity.
  - apply bind_ext. intros s'. apply IH.
Qed.

Lemma for_each_ext {A S} (xs : list A) (body body' : A -> S -> M S) (s : S) :
  (forall x s, body x s = body' x s) ->
  for_each xs body s = for_each xs body' s.
Proof.
  intros Hb. revert s. induction xs as [| x xs IH]; intros s; cbn [for_each].
  - reflexivity.
  - rewrite Hb. apply bind_ext. intros s'. apply IH.
Qed.

(** A loop whose body does nothing on the items that fail a test is a
    loop over the items that pass it. *)
Lemma for_each_filter {A S} (p : A -> bool) (xs : list A)
    (body : A -> S -> M S) (s : S) :
  for_each xs (fun x s => if p x then body x s else ret s) s =
  for_each (List.filter p xs) body s.
Proof.
  revert s. induction xs as [| x xs IH]; intros s; cbn [for_each List.filter].
  - reflexivity.
  - destruct (p x); cbn [for_each].
    + apply bind_ext. intros s'. apply IH.
    + rewrite bind_ret_l. apply IH.
Qed.

(** The two nested loops of a loader are one loop over the listing. *)
Lemma for_each_walk {S} (walk : list walk_entry)
    (body : string -> string -> S -> M S) (s : S) :
  for_each walk (fun entry s =>
    for_each (w_files entry) (fun file_name s =>
      body (w_root entry) file_name s) s) s =
  for_each (listing walk) (fun rn s => body (fst rn) (snd rn) s) s.
Proof.
  revert s. induction walk as [| entry walk IH]; intros s;
    cbn [for_each listing flat_map].
  - reflexivity.
  - rewrite for_each_app, for_each_map. apply bind_ext. intros s'. apply IH.
Qed.

Lemma elem_of_listing (walk : list walk_entry) (r n : string) :
  In (r, n) (listing walk) <->
  exists entry, In entry walk /\ r = w_root entry /\ In n (w_files entry).
Proof.
  unfold listing. rewrite in_flat_map. split.
  - intros (entry & He & Hn). apply in_map_iff in Hn as (n' & Heq & Hn').
    inversion Heq; subst. eauto.
  - intros (entry & He & -> & Hn). exists entry. split; [exact He |].
    apply in_map. exact Hn.
Qed.

Lemma filter_none {A} (p : A -> bool) (xs : list A) :
  (forall x, In x xs -> p x = false) -> List.filter p xs = [].
Proof.
  induction xs as [| x xs IH]; intros Hp; cbn [List.filter].
  - reflexivity.
  - rewrite (Hp x (or_introl eq_refl)). apply IH.
    intros y Hy. apply Hp. right. exact Hy.
Qed.

Lemma filter_andb {A} (p q : A -> bool) (xs : list A) :
  List.filter (fun x => p x && q x) xs = List.filter q (List.filter p xs).
Proof.
  induction xs as [| x xs IH]; cbn [List.filter]; [reflexivity |].
  destruct (p x); cbn [andb List.filter]; [| exact IH].
  destruct (q x); rewrite IH; reflexivity.
Qed.

Lemma for_each_ext_in {A S} (xs : list A) (body body' : A -> S -> M S) (s : S) :
  (forall x s, In x xs -> body x s = body' x s) ->
  for_each xs body s = for_each xs body' s.
Proof.
  revert s. induction xs as [| x xs IH]; intros s Hb; cbn [for_each].
  - reflexivity.
  - rewrite (Hb x s (or_introl eq_refl)). apply bind_ext. intros s'.
    apply IH. intros y t Hy. apply Hb. right. exact Hy.
Qed.

Lemma elem_of_selected (keep : string -> bool) (walk : list walk_entry)
    (rn : string * string) :
  In rn (selected keep walk) <->
  exists entry, In entry walk /\ fst rn = w_root entry /\
                In (snd rn) (w_files entry) /\ keep (snd rn) = true.
Proof.
  unfold selected. rewrite filter_In. destruct rn as [r n]. cbn [fst snd].
  rewrite elem_of_listing. split.
  - intros [(entry & He & Hr & Hn) Hk]. eauto.
  - intros (entry & He & Hr & Hn & Hk). eauto.
Qed.

Lemma opened_paths_triple (p : string) (l : list event) :
  opened_paths (EvOpen p :: EvRead p :: EvClose p :: l) = p :: opened_paths l.
Proof. reflexivity. Qed.


(** ** The notebook's loader, file by file *)

Section ReadFilesFromFolder.

Variable default_codec : bytes -> option string.

Lemma read_one_eq (disk : gmap string file) (rn : string * string)
    (contents : list string) :
  read_one default_codec disk rn contents =
  (file_log disk (path_of rn),
   match file_text default_codec disk (path_of rn) with
   | Ok s => Ok (contents ++ [s])
   | Raise e => Raise e
   end).
Proof.
  unfold read_one, with_open, file_log, file_text, read.
  destruct (disk !! path_of rn) as [[b |] |]; try reflexivity.
  cbn. destruct (text_read default_codec b); reflexivity.
Qed.

(** The loader is one loop over the text files of the walk. *)
Lemma read_files_from_folder_flat (os : os_state) (root_folder : string) :
  read_files_from_folder default_codec os root_folder =
  for_each (selected is_text_file (os_walk os root_folder))
    (read_one default_codec (os_disk os)) [].
Proof.
  unfold read_files_from_folder, selected.
  rewrite <- for_each_filter.
  exact (for_each_walk (os_walk os root_folder)
           (fun r n contents =>
              if is_text_file n
              then read_one default_codec (os_disk os) (r, n) contents
              else ret contents) []).
Qed.

Lemma file_log_cases (disk : gmap string file) (p : string) :
  file_log disk p = [] \/ file_log disk p = [EvOpen p; EvRead p; EvClose p].
Proof.
  unfold file_log. destruct (disk !! p) as [[b |] |]; auto.
Qed.

Lemma file_text_ok_log (disk : gmap string file) (p s : string) :
  file_text default_codec disk p = Ok s ->
  file_log disk p = [EvOpen p; EvRead p; EvClose p].
Proof.
  unfold file_text, file_log.
  destruct (disk !! p) as [[b |] |]; [reflexivity | discriminate | discriminate].
Qed.

Lemma read_loop_cons (disk : gmap string file) (rn : string * string)
    (fs : list (string * string)) (contents : list string) :
  for_each (rn :: fs) (read_one default_codec disk) contents =
  match file_text default_codec disk (path_of rn) with
  | Ok s =>
      (file_log disk (path_of rn) ++
         log_of (for_each fs (read_one default_codec disk) (contents ++ [s])),
       outcome_of (for_each fs (read_one default_codec disk) (contents ++ [s])))
  | Raise e => (file_log disk (path_of rn), Raise e)
  end.
Proof.
  cbn [for_each]. rewrite read_one_eq.
  destruct (file_text default_codec disk (path_of rn)) as [s | e]; cbn [bind].
  - destruct (for_each fs (read_one default_codec disk) (contents ++ [s])).
    reflexivity.
  - reflexivity.
Qed.

(** The log of the loop is a sequence of open, read, close triples. *)
Lemma read_loop_sequential (disk : gmap string file)
    (fs : list (string * string)) (contents : list string) :
  sequential (log_of (for_each fs (read_one default_codec disk) contents)).
Proof.
  revert contents. induction fs as [| rn fs IH]; intros contents.
  - constructor.
  - rewrite read_loop_cons.
    destruct (file_text default_codec disk (path_of rn)) as [s | e] eqn:Ht.
    + rewrite (file_text_ok_log _ _ _ Ht). cbn. constructor. apply IH.
    + cbn. destruct (file_log_cases disk (path_of rn)) as [-> | ->];
        repeat constructor.
Qed.

(** A run that returns has opened and read every file of the loop, in
    order, and has appended the text of each. *)
Lemma read_loop_ok (disk : gmap string file) (fs : list (string * string))
    (contents out : list string) :
  outcome_of (for_each fs (read_one default_codec disk) contents) = Ok out ->
  log_of (for_each fs (read_one default_codec disk) contents) =
    flat_map (fun rn => [EvOpen (path_of rn); EvRead (path_of rn);
                         EvClose (path_of rn)]) fs /\
  exists texts,
    out = contents ++ texts /\
    Forall2 (fun rn s => file_text default_codec disk (path_of rn) = Ok s)
      fs texts.
Proof.
  revert contents. induction fs as [| rn fs IH]; intros contents.
  - cbn. intros [= <-]. split; [reflexivity |].
    exists []. rewrite app_nil_r. split; [reflexivity | constructor].
  - rewrite read_loop_cons.
    destruct (file_text default_codec disk (path_of rn)) as [s | e] eqn:Ht;
      [| discriminate].
    intros Hout. apply IH in Hout as (Hlog & texts & -> & Hall).
    unfold log_of at 1. cbn [fst]. rewrite Hlog, (file_text_ok_log _ _ _ Ht).
    split; [reflexivity |].
    exists (s :: texts). rewrite <- app_assoc. split; [reflexivity |].
    constructor; assumption.
Qed.


(** The loop raises exactly at its first file that cannot be read as
    text, with the exception of that file. *)
Lemma read_loop_first_failure (disk : gmap string file)
    (before after : list (string * string)) (bad : string * string)
    (e : exn) (contents : list string) :
  Forall (fun rn => exists s, file_text default_codec disk (path_of rn) = Ok s)
    before ->
  file_text default_codec disk (path_of bad) = Raise e ->
  outcome_of (for_each (before ++ bad :: after)
                (read_one default_codec disk) contents) = Raise e.
Proof.
  intros Hbefore Hbad. revert contents.
  induction Hbefore as [| rn before [s Hs] _ IH]; intros contents;
    cbn [app]; rewrite read_loop_cons.
  - rewrite Hbad. reflexivity.
  - rewrite Hs. cbn [outcome_of snd]. apply IH.
Qed.

Lemma Forall2_In_l {A B} (P : A -> B -> Prop) (xs : list A) (ys : list B)
    (x : A) :
  Forall2 P xs ys -> In x xs -> exists y, In y ys /\ P x y.
Proof.
  induction 1 as [| x' y' xs ys Hxy _ IH]; intros Hin; [destruct Hin |].
  destruct Hin as [-> | Hin].
  - exists y'. split; [left; reflexivity | exact Hxy].
  - destruct (IH Hin) as (y & Hy & Hp). exists y. split; [right |]; assumption.
Qed.

(** A run of the loader that returns has opened and read every text file
    of the walk, in order, and returns their texts. *)
Lemma read_files_from_folder_ok (os : os_state) (root_folder : string)
    (contents : list string) :
  outcome_of (read_files_from_folder default_codec os root_folder) = Ok contents ->
  opened_paths (log_of (read_files_from_folder default_codec os root_folder)) =
    map path_of (selected is_text_file (os_walk os root_folder)) /\
  Forall2 (fun rn s => file_text default_codec (os_disk os) (path_of rn) = Ok s)
    (selected is_text_file (os_walk os root_folder)) contents.
Proof.
  rewrite read_files_from_folder_flat. intros Hok.
  apply read_loop_ok in Hok as (Hlog & texts & -> & Hall).
  split; [| exact Hall]. rewrite Hlog. clear.
  induction (selected is_text_file (os_walk os root_folder)) as [| rn fs IH].
  - reflexivity.
  - cbn [flat_map app map]. rewrite opened_paths_triple, IH. reflexivity.
Qed.


End ReadFilesFromFolder.

(** ** File handles *)

Lemma handles_after_triple (p : string) (l : list event) :
  handles_after (EvOpen p :: EvRead p :: EvClose p :: l) = handles_after l.
Proof.
  unfold handles_after. cbn [fold_left step_handles List.remove].
  destruct (string_dec p p) as [_ | Hne]; [reflexivity | congruence].
Qed.

Lemma sequential_handles (l : list event) :
  sequential l ->
  handles_after l = [] /\
  forall before after, l = before ++ after ->
    (List.length (handles_after before) <= 1)%nat.
Proof.
  induction 1 as [| p l _ [IHend IHpre]].
  - split; [reflexivity |].
    intros before after Heq. symmetry in Heq.
    apply app_eq_nil in Heq as [-> _]. cbn. lia.
  - split; [rewrite handles_after_triple; exact IHend |].
    intros before after Heq.
    destruct before as [| e1 [| e2 [| e3 before]]]; cbn in Heq.
    + cbn. lia.
    + injection Heq as <- _. cbn. lia.
    + injection Heq as <- <- _. cbn. lia.
    + injection Heq as <- <- <- Heq. rewrite handles_after_triple.
      exact (IHpre before after Heq).
Qed.

(** ** Claims settled on [read_files_from_folder] *)


(** C8: on a root under which no file name ends with [.txt], the loader
    returns the empty list, without raising and without opening a file. *)
Theorem read_files_from_folder_no_text_file
    (default_codec : bytes -> option string) (os : os_state)
    (root_folder : string) :
  (forall entry file_name,
     In entry (os_walk os root_folder) -> In file_name (w_files entry) ->
     is_text_file file_name = false) ->
  read_files_from_folder default_codec os root_folder = ([], Ok []).
Proof.
  intros Hnone. rewrite read_files_from_folder_flat.
  unfold selected. rewrite filter_none; [reflexivity |].
  intros [r n] Hin. apply elem_of_listing in Hin as (entry & He & _ & Hn).
  exact (Hnone entry n He Hn).
Qed.

(** C9: the log of a load is a sequence of open, read, close triples, one
    file after the other; at no point of the load is more than one handle
    open, and none is left open at the end, whether the load returns or
    raises. *)
Theorem read_files_from_folder_sequential
    (default_codec : bytes -> option string) (os : os_state)
    (root_folder : string) :
  sequential (log_of (read_files_from_folder default_codec os root_folder)) /\
  handles_after (log_of (read_files_from_folder default_codec os root_folder)) = [] /\
  (forall before after,
     log_of (read_files_from_folder default_codec os root_folder) = before ++ after ->
     (List.length (handles_after before) <= 1)%nat).
Proof.
  rewrite read_files_from_folder_flat.
  pose proof (read_loop_sequential default_codec (os_disk os)
                (selected is_text_file (os_walk os root_folder)) []) as Hseq.
  split; [exact Hseq |]. apply sequential_handles. exact Hseq.
Qed.

(** C10: two runs of the loader that see the same walk of the root and the
    same files at the paths of the text files of that walk produce the
    same log and the same outcome: equal lists of strings in the same
    order, or the same exception. *)
Theorem read_files_from_folder_deterministic
    (default_codec : bytes -> option string) (os1 os2 : os_state)
    (root_folder : string) :
  os_walk os1 root_folder = os_walk os2 root_folder ->
  (forall entry file_name,
     In entry (os_walk os1 root_folder) -> In file_name (w_files entry) ->
     is_text_file file_name = true ->
     os_disk os1 !! Py.join (w_root entry) file_name =
     os_disk os2 !! Py.join (w_root entry) file_name) ->
  read_files_from_folder default_codec os1 root_folder =
  read_files_from_folder default_codec os2 root_folder.
Proof.
  intros Hwalk Hdisk. rewrite !read_files_from_folder_flat, <- Hwalk.
  apply for_each_ext_in. intros [r n] contents Hin.
  apply elem_of_selected in Hin as (entry & He & Hr & Hn & Hk).
  cbn [fst snd] in *. subst r.
  unfold read_one, with_open, path_of. cbn [fst snd].
  rewrite (Hdisk entry n He Hn Hk). reflexivity.
Qed.

(** Case analysis on membership in a list that computes to a literal. *)
Ltac in_cases H :=
  vm_compute in H;
  repeat match type of H with
         | _ \/ _ => destruct H as [H | H]
         | False => destruct H
         end;
  try subst.

Lemma read_files_from_folder_no_text_file_witness :
  (forall entry file_name,
     In entry (os_walk notes_os "notes") -> In file_name (w_files entry) ->
     is_text_file file_name = false) /\
  read_files_from_folder ascii_codec notes_os "notes" = ([], Ok []).
Proof.
  assert (Hnone : forall entry file_name,
            In entry (os_walk notes_os "notes") -> In file_name (w_files entry) ->
            is_text_file file_name = false).
  { intros entry file_name He Hn. in_cases He; in_cases Hn; reflexivity. }
  split; [exact Hnone |].
  exact (read_files_from_folder_no_text_file ascii_codec notes_os "notes" Hnone).
Defined.

Lemma read_files_from_folder_deterministic_witness :
  os_disk business_os <> os_disk business_os_later /\
  read_files_from_folder ascii_codec business_os "bbc_news/business" =
  read_files_from_folder ascii_codec business_os_later "bbc_news/business".
Proof.
  split.
  - intros Heq.
    assert (Hl : os_disk business_os !! "bbc_news/README.TXT" =
                 os_disk business_os_later !! "bbc_news/README.TXT")
      by (rewrite Heq; reflexivity).
    vm_compute in Hl. discriminate Hl.
  - apply read_files_from_folder_deterministic.
    + reflexivity.
    + intros entry file_name He Hn Ht.
      in_cases He; in_cases Hn; first [ reflexivity | discriminate Ht ].
Defined.

(** ** The [TextFiles] loader, file by file *)

Section TextFilesFacts.

Variable default_codec : bytes -> option string.
Context {encoding : Type}.
Variable detect : bytes -> list (encoding * nat).
Variable decode_with : encoding -> bytes -> option string.
Variable threshold : nat.

Local Abbreviation load_file :=
  (TextFiles.load_file default_codec detect decode_with threshold).
Local Abbreviation load_one :=
  (TextFiles.load_one default_codec detect decode_with threshold).
Local Abbreviation load_result :=
  (TextFiles.load_result default_codec detect decode_with threshold).
Local Abbreviation document_of :=
  (TextFiles.document_of default_codec detect decode_with threshold).
Local Abbreviation skip_of :=
  (TextFiles.skip_of default_codec detect decode_with threshold).
Local Abbreviation decode_bytes :=
  (TextFiles.decode_bytes default_codec detect decode_with threshold).
Local Abbreviation redecode := (TextFiles.redecode detect decode_with threshold).
Local Abbreviation read_folder_with_categories :=
  (TextFiles.read_folder_with_categories default_codec detect decode_with
     threshold).



Lemma load_file_eq (disk : gmap string file) (path file_name : string) :
  load_file disk path file_name =
  match disk !! path with
  | Some (Readable b) =>
      match text_read default_codec b with
      | Some s => ([EvOpen path; EvRead path; EvClose path], Ok (Some s))
      | None =>
          match redecode b with
          | Some s => ([EvOpen path; EvRead path; EvClose path], Ok (Some s))
          | None =>
              ([EvOpen path; EvRead path; EvSkipped file_name DecodeFailure;
                EvClose path], Ok None)
          end
      end
  | Some Denied | None => ([EvSkipped file_name ReadFailure], Ok None)
  end.
Proof.
  unfold TextFiles.load_file, with_open, read.
  destruct (disk !! path) as [[b |] |]; try reflexivity.
  cbn. destruct (text_read default_codec b) as [s |]; [reflexivity |].
  cbn. destruct (redecode b) as [s |]; reflexivity.
Qed.

(** A file never makes the loader raise: it gives its text or it is
    skipped, and it is reported exactly when it is skipped. *)
Lemma load_file_outcome (disk : gmap string file) (path file_name : string) :
  outcome_of (load_file disk path file_name) =
    Ok match load_result disk path with
       | Text s => Some s
       | Skip _ => None
       end /\
  skipped_files (log_of (load_file disk path file_name)) =
    match load_result disk path with
    | Text _ => []
    | Skip why => [(file_name, why)]
    end.
Proof.
  rewrite load_file_eq. unfold TextFiles.load_result, TextFiles.decode_bytes.
  destruct (disk !! path) as [[b |] |]; [| split; reflexivity ..].
  destruct (text_read default_codec b) as [s |]; [split; reflexivity |].
  destruct (redecode b) as [s |]; split; reflexivity.
Qed.

Lemma skipped_files_app (l1 l2 : list event) :
  skipped_files (l1 ++ l2) = skipped_files l1 ++ skipped_files l2.
Proof. apply omap_app. Qed.

Lemma load_loop_cons (disk : gmap string file) (rn : string * string)
    (fs : list (string * string)) (corpus : list (gmap string string)) :
  for_each (rn :: fs) (load_one disk) corpus =
  (log_of (load_file disk (path_of rn) (snd rn)) ++
     log_of (for_each fs (load_one disk)
               (corpus ++ option_list (document_of disk rn))),
   outcome_of (for_each fs (load_one disk)
                 (corpus ++ option_list (document_of disk rn)))).
Proof.
  cbn [for_each]. unfold TextFiles.load_one at 1, TextFiles.document_of.
  destruct (load_file_outcome disk (path_of rn) (snd rn)) as [Hout _].
  destruct (load_file disk (path_of rn) (snd rn)) as [l r].
  cbn [outcome_of snd] in Hout. subst r.
  destruct (load_result disk (path_of rn)) as [s | why];
    cbn [bind ret option_list log_of fst app].
  - destruct (for_each fs (load_one disk) _) as [l' r'].
    rewrite app_nil_r. reflexivity.
  - rewrite !app_nil_r.
    destruct (for_each fs (load_one disk) corpus) as [l' r']. reflexivity.
Qed.

(** The loop of the loader never raises: it returns the Documents of the
    files that load, in order, and reports the others, in order. *)
Lemma load_loop (disk : gmap string file) (fs : list (string * string))
    (corpus : list (gmap string string)) :
  outcome_of (for_each fs (load_one disk) corpus) =
    Ok (corpus ++ omap (document_of disk) fs) /\
  skipped_files (log_of (for_each fs (load_one disk) corpus)) =
    omap (skip_of disk) fs.
Proof.
  revert corpus. induction fs as [| rn fs IH]; intros corpus.
  - cbn. rewrite app_nil_r. split; reflexivity.
  - rewrite load_loop_cons. cbn [outcome_of log_of fst snd].
    destruct (IH (corpus ++ option_list (document_of disk rn))) as [Ho Hs].
    rewrite Ho, skipped_files_app, Hs.
    destruct (load_file_outcome disk (path_of rn) (snd rn)) as [_ Hl].
    rewrite Hl.
    unfold TextFiles.document_of, TextFiles.skip_of. cbn [omap list_omap].
    destruct (load_result disk (path_of rn)) as [s | why];
      cbn [option_list app]; rewrite <- ?app_assoc; split; reflexivity.
Qed.

(** On a root that is a directory, the loader is one loop over the wanted
    files of the walk. *)
Lemma read_folder_with_categories_flat (ignored_files : gset string)
    (os : os_state) (root_folder : string) :
  os_isdir os root_folder = true ->
  read_folder_with_categories ignored_files os root_folder =
  for_each (selected (TextFiles.wanted ignored_files) (os_walk os root_folder))
    (load_one (os_disk os)) [].
Proof.
  intros Hdir. unfold TextFiles.read_folder_with_categories, selected.
  rewrite Hdir, <- for_each_filter.
  exact (for_each_walk (os_walk os root_folder)
           (fun r n corpus =>
              if TextFiles.wanted ignored_files n
              then load_one (os_disk os) (r, n) corpus
              else ret corpus) []).
Qed.

(** On a root that is a directory the loader returns, and what it
    returns and reports is decided file by file. *)
Lemma read_folder_with_categories_closed_form (ignored_files : gset string)
    (os : os_state) (root_folder : string) :
  os_isdir os root_folder = true ->
  outcome_of (read_folder_with_categories ignored_files os root_folder) =
    Ok (omap (document_of (os_disk os))
          (selected (TextFiles.wanted ignored_files) (os_walk os root_folder))) /\
  skipped_files (log_of (read_folder_with_categories ignored_files os root_folder)) =
    omap (skip_of (os_disk os))
      (selected (TextFiles.wanted ignored_files) (os_walk os root_folder)).
Proof.
  intros Hdir. rewrite (read_folder_with_categories_flat _ _ _ Hdir).
  exact (load_loop (os_disk os) _ []).
Qed.

(** A load that returns was given a root that is a directory. *)
Lemma read_folder_with_categories_ok_isdir (ignored_files : gset string)
    (os : os_state) (root_folder : string)
    (corpus : list (gmap string string)) :
  outcome_of (read_folder_with_categories ignored_files os root_folder) = Ok corpus ->
  os_isdir os root_folder = true.
Proof.
  unfold TextFiles.read_folder_with_categories.
  destruct (os_isdir os root_folder); [reflexivity | discriminate].
Qed.

Lemma wanted_spec (ignored_files : gset string) (file_name : string) :
  TextFiles.wanted ignored_files file_name = true <->
  is_text_file file_name = true /\ file_name ∉ ignored_files.
Proof.
  unfold TextFiles.wanted. rewrite andb_true_iff, negb_true_iff.
  rewrite bool_decide_eq_false. reflexivity.
Qed.

(** Where each Document of a returned corpus comes from. *)
Lemma corpus_provenance (ignored_files : gset string) (os : os_state)
    (root_folder : string) (corpus : list (gmap string string)) :
  outcome_of (read_folder_with_categories ignored_files os root_folder) = Ok corpus ->
  forall d, In d corpus ->
  exists entry file_name s,
    In entry (os_walk os root_folder) /\
    In file_name (w_files entry) /\
    is_text_file file_name = true /\
    (file_name ∉ ignored_files) /\
    load_result (os_disk os) (Py.join (w_root entry) file_name) = Text s /\
    d = TextFiles.document s (Py.dir_name (w_root entry)) file_name.
Proof.
  intros Hok d Hd.
  pose proof (read_folder_with_categories_ok_isdir _ _ _ _ Hok) as Hdir.
  destruct (read_folder_with_categories_closed_form ignored_files os
              root_folder Hdir) as [Hout _].
  rewrite Hout in Hok. injection Hok as <-.
  apply list_elem_of_In, list_elem_of_omap in Hd as ([r n] & Hsel & Hdoc).
  apply list_elem_of_In, elem_of_selected in Hsel as (entry & He & Hr & Hn & Hw).
  cbn [fst snd] in *. subst r. apply wanted_spec in Hw as [Ht Hi].
  unfold TextFiles.document_of, path_of in Hdoc. cbn [fst snd] in Hdoc.
  destruct (load_result (os_disk os) (Py.join (w_root entry) n)) as [s | why]
    eqn:Hres; [| discriminate].
  injection Hdoc as <-. exists entry, n, s. auto 10.
Qed.



Lemma document_lookup (raw_content category file_name : string) :
  TextFiles.document raw_content category file_name !! "raw_content" =
    Some raw_content /\
  TextFiles.document raw_content category file_name !! "category" =
    Some category /\
  TextFiles.document raw_content category file_name !! "file_name" =
    Some file_name.
Proof. unfold TextFiles.document. repeat split; by simplify_map_eq. Qed.

Lemma document_dom (raw_content category file_name : string) :
  dom (TextFiles.document raw_content category file_name) =
  ({["raw_content"; "category"; "file_name"]} : gset string).
Proof.
  unfold TextFiles.document. rewrite !dom_insert_L, dom_empty_L. set_solver.
Qed.

(** The wanted files are the eligible files that are not ignored. *)
Lemma selected_wanted (ignored_files : gset string) (walk : list walk_entry) :
  selected (TextFiles.wanted ignored_files) walk =
  List.filter (fun rn => negb (bool_decide (snd rn ∈ ignored_files)))
    (selected is_text_file walk).
Proof.
  unfold selected, TextFiles.wanted.
  exact (filter_andb (fun rn => is_text_file (snd rn))
           (fun rn => negb (bool_decide (snd rn ∈ ignored_files)))
           (listing walk)).
Qed.


(** The category of a Document is the name of the directory of the tree
    that holds its file, when [os.walk] runs on a directory tree. *)
Lemma category_is_directory_name (ignored_files : gset string)
    (os : os_state) (root_folder : string) (t : tree)
    (corpus : list (gmap string string)) :
  os_walk os root_folder = walk_tree root_folder t ->
  well_named t = true ->
  outcome_of (read_folder_with_categories ignored_files os root_folder) = Ok corpus ->
  forall d, In d corpus ->
  exists dir_name file_name,
    In (dir_name, file_name) (labelled (Py.dir_name root_folder) t) /\
    d !! "category" = Some dir_name /\
    d !! "file_name" = Some file_name.
Proof.
  intros Hwalk Hwn Hok d Hd.
  destruct (corpus_provenance _ _ _ _ Hok d Hd)
    as (entry & n & s & He & Hn & _ & _ & _ & ->).
  destruct (document_lookup s (Py.dir_name (w_root entry)) n)
    as (_ & Hcat & Hname).
  exists (Py.dir_name (w_root entry)), n. split; [| auto].
  rewrite <- (listing_directory_names t root_folder Hwn), <- Hwalk.
  apply (in_map (fun rn => (Py.dir_name (fst rn), snd rn)) _ (w_root entry, n)).
  apply elem_of_listing. exists entry. auto.
Qed.

(** Without a text file under the root the corpus is empty. *)
Lemma read_folder_with_categories_no_text_file (ignored_files : gset string)
    (os : os_state) (root_folder : string) :
  os_isdir os root_folder = true ->
  (forall entry file_name,
     In entry (os_walk os root_folder) -> In file_name (w_files entry) ->
     is_text_file file_name = false) ->
  read_folder_with_categories ignored_files os root_folder = ([], Ok []).
Proof.
  intros Hdir Hnone.
  rewrite (read_folder_with_categories_flat _ _ _ Hdir), selected_wanted.
  unfold selected. rewrite (filter_none (fun rn => is_text_file (snd rn)));
    [reflexivity |].
  intros [r n] Hin. apply elem_of_listing in Hin as (entry & He & _ & Hn).
  exact (Hnone entry n He Hn).
Qed.

(** The loader, too, handles one file at a time. *)
Lemma read_folder_with_categories_sequential (ignored_files : gset string)
    (os : os_state) (root_folder : string) :
  sequential
    (file_events
       (log_of (read_folder_with_categories ignored_files os root_folder))).
Proof.
  destruct (os_isdir os root_folder) eqn:Hdir.
  - rewrite (read_folder_with_categories_flat _ _ _ Hdir).
    generalize (@nil (gmap string string)) as corpus.
    induction (selected (TextFiles.wanted ignored_files)
                 (os_walk os root_folder)) as [| rn fs IH]; intros corpus.
    + constructor.
    + rewrite load_loop_cons. cbn [log_of fst]. unfold file_events.
      rewrite List.filter_app. fold (file_events (log_of (for_each fs
        (load_one (os_disk os))
        (corpus ++ option_list (document_of (os_disk os) rn))))).
      rewrite load_file_eq.
      destruct (os_disk os !! path_of rn) as [[b |] |]; [| apply IH ..].
      destruct (text_read default_codec b) as [s |];
        [| destruct (redecode b) as [s |]]; cbn; constructor; apply IH.
  - unfold TextFiles.read_folder_with_categories. rewrite Hdir. constructor.
Qed.

(** The fate of one wanted file of the walk, whatever the other files
    are: its Document is returned, or it is reported. *)
Lemma wanted_file_fate (ignored_files : gset string) (os : os_state)
    (root_folder : string) :
  os_isdir os root_folder = true ->
  forall entry file_name,
    In entry (os_walk os root_folder) -> In file_name (w_files entry) ->
    TextFiles.wanted ignored_files file_name = true ->
    match load_result (os_disk os) (Py.join (w_root entry) file_name) with
    | Text s =>
        In (TextFiles.document s (Py.dir_name (w_root entry)) file_name)
          (omap (document_of (os_disk os))
             (selected (TextFiles.wanted ignored_files)
                (os_walk os root_folder)))
    | Skip why =>
        In (EvSkipped file_name why)
          (log_of (read_folder_with_categories ignored_files os root_folder))
    end.
Proof.
  intros Hdir entry n He Hn Hw.
  destruct (read_folder_with_categories_closed_form ignored_files os
              root_folder Hdir) as [_ Hskip].
  assert (Hsel : In (w_root entry, n)
            (selected (TextFiles.wanted ignored_files) (os_walk os root_folder))).
  { apply elem_of_selected. exists entry. auto. }
  destruct (load_result (os_disk os) (Py.join (w_root entry) n)) as [s | why]
    eqn:Hres.
  - apply list_elem_of_In, list_elem_of_omap. exists (w_root entry, n).
    split; [apply list_elem_of_In; exact Hsel |].
    unfold TextFiles.document_of, path_of. cbn [fst snd]. rewrite Hres.
    reflexivity.
  - assert (Hrep : (n, why) ∈ skipped_files
              (log_of (read_folder_with_categories ignored_files os root_folder))).
    { rewrite Hskip. apply list_elem_of_omap. exists (w_root entry, n).
      split; [apply list_elem_of_In; exact Hsel |].
      unfold TextFiles.skip_of, path_of. cbn [fst snd]. rewrite Hres.
      reflexivity. }
    apply list_elem_of_omap in Hrep as (ev & Hev & Hmatch).
    destruct ev; try discriminate. injection Hmatch as -> ->.
    apply list_elem_of_In. exact Hev.
Qed.

End TextFilesFacts.

(** ** Claims settled on the [TextFiles] loader *)

Section TextFilesClaims.

Variable default_codec : bytes -> option string.
Context {encoding : Type}.
Variable detect : bytes -> list (encoding * nat).
Variable decode_with : encoding -> bytes -> option string.
Variable threshold : nat.

Local Abbreviation load_result :=
  (TextFiles.load_result default_codec detect decode_with threshold).
Local Abbreviation document_of :=
  (TextFiles.document_of default_codec detect decode_with threshold).
Local Abbreviation skip_of :=
  (TextFiles.skip_of default_codec detect decode_with threshold).
Local Abbreviation read_folder_with_categories :=
  (TextFiles.read_folder_with_categories default_codec detect decode_with
     threshold).

(** C1: on every root that is a directory the load returns a corpus and
    raises nothing, whatever the state of the files: a wanted file that
    cannot be opened or decoded is skipped and reported with its reason,
    every wanted file that loads has its Document in the corpus, and the
    corpus is made of the Documents of the files that load, in the order
    of the walk. *)
Theorem read_folder_with_categories_isolates_failures
    (ignored_files : gset string) (os : os_state) (root_folder : string) :
  os_isdir os root_folder = true ->
  exists corpus,
    outcome_of (read_folder_with_categories ignored_files os root_folder) =
      Ok corpus /\
    corpus =
      omap (document_of (os_disk os))
        (selected (TextFiles.wanted ignored_files) (os_walk os root_folder)) /\
    forall entry file_name,
      In entry (os_walk os root_folder) -> In file_name (w_files entry) ->
      TextFiles.wanted ignored_files file_name = true ->
      match load_result (os_disk os) (Py.join (w_root entry) file_name) with
      | Text s =>
          In (TextFiles.document s (Py.dir_name (w_root entry)) file_name)
            corpus
      | Skip why =>
          In (EvSkipped file_name why)
            (log_of (read_folder_with_categories ignored_files os root_folder))
      end.
Proof.
  intros Hdir.
  destruct (read_folder_with_categories_closed_form default_codec detect
              decode_with threshold ignored_files os root_folder Hdir)
    as [Hout _].
  eexists. split; [exact Hout |]. split; [reflexivity |].
  exact (wanted_file_fate default_codec detect decode_with threshold
           ignored_files os root_folder Hdir).
Qed.


(** C3: every record of a returned corpus has the three keys
    [raw_content], [category] and [file_name] and no other; they hold the
    text of all the bytes of a wanted file of the walk, the name of the
    directory that lists it, and its file name. *)
Theorem read_folder_with_categories_three_fields
    (ignored_files : gset string) (os : os_state) (root_folder : string)
    (corpus : list (gmap string string)) :
  outcome_of (read_folder_with_categories ignored_files os root_folder) =
    Ok corpus ->
  forall d, In d corpus ->
    dom d = ({["raw_content"; "category"; "file_name"]} : gset string) /\
    exists entry file_name s,
      In entry (os_walk os root_folder) /\ In file_name (w_files entry) /\
      load_result (os_disk os) (Py.join (w_root entry) file_name) = Text s /\
      d !! "raw_content" = Some s /\
      d !! "category" = Some (Py.dir_name (w_root entry)) /\
      d !! "file_name" = Some file_name.
Proof.
  intros Hok d Hd.
  destruct (corpus_provenance _ _ _ _ _ _ _ _ Hok d Hd)
    as (entry & n & s & He & Hn & _ & _ & Hres & ->).
  split; [apply document_dom |].
  destruct (document_lookup s (Py.dir_name (w_root entry)) n)
    as (Hraw & Hcat & Hname).
  exists entry, n, s. auto 10.
Qed.


(** C5: no Document of a returned corpus has a file name that is in the
    ignored set. *)
Theorem read_folder_with_categories_ignores
    (ignored_files : gset string) (os : os_state) (root_folder : string)
    (corpus : list (gmap string string)) :
  outcome_of (read_folder_with_categories ignored_files os root_folder) =
    Ok corpus ->
  forall d file_name,
    In d corpus -> d !! "file_name" = Some file_name ->
    file_name ∉ ignored_files.
Proof.
  intros Hok d file_name Hd Hname.
  destruct (corpus_provenance _ _ _ _ _ _ _ _ Hok d Hd)
    as (entry & n & s & _ & _ & _ & Hnot & _ & ->).
  destruct (document_lookup s (Py.dir_name (w_root entry)) n)
    as (_ & _ & Hn).
  rewrite Hn in Hname. injection Hname as <-. exact Hnot.
Qed.


End TextFilesClaims.

(** ** The loaders on the sample corpus *)

Example read_sample_ascii :
  outcome_of (read_files_from_folder ascii_codec sample_os "bbc_news") =
  Raise (UnicodeDecodeError "bbc_news/tech/001.txt").
Proof. vm_compute. reflexivity. Qed.

Example read_sample_latin1 :
  outcome_of (read_files_from_folder latin1_codec sample_os "bbc_news") =
  Raise (PermissionError "bbc_news/tech/002.txt").
Proof. vm_compute. reflexivity. Qed.

Example read_business :
  outcome_of (read_files_from_folder ascii_codec business_os "bbc_news/business") =
  Ok ["Ad sales boost"; ("Dollar gains" ++ String "010" "on")%string].
Proof. vm_compute. reflexivity. Qed.

Example load_sample_lenient :
  outcome_of (sample_load 50 ∅) = Ok lenient_corpus /\
  skipped_files (log_of (sample_load 50 ∅)) =
    [("002.txt", ReadFailure); ("003.txt", ReadFailure)].
Proof. split; vm_compute; reflexivity. Qed.

Example load_sample_strict :
  outcome_of (sample_load 80 {["002.txt"]}) = Ok strict_corpus /\
  skipped_files (log_of (sample_load 80 {["002.txt"]})) =
    [("001.txt", DecodeFailure); ("003.txt", ReadFailure)].
Proof. split; vm_compute; reflexivity. Qed.

Example load_missing_root :
  TextFiles.read_folder_with_categories ascii_codec sample_detect codec_of 50
    ∅ sample_os "bbc" = ([], Raise (RootNotFound "bbc")).
Proof. reflexivity. Qed.

(** By contrast with [TextFiles], the notebook's own loader stops at the
    first text file that cannot be read as text, and raises its exception:
    the error the notebook shows before it turns to [TextFiles]. *)
Lemma read_files_from_folder_first_failure
    (default_codec : bytes -> option string) (os : os_state)
    (root_folder : string) (before after : list (string * string))
    (bad : string * string) (e : exn) :
  selected is_text_file (os_walk os root_folder) = before ++ bad :: after ->
  Forall (fun rn => exists s,
            file_text default_codec (os_disk os) (path_of rn) = Ok s) before ->
  file_text default_codec (os_disk os) (path_of bad) = Raise e ->
  outcome_of (read_files_from_folder default_codec os root_folder) = Raise e.
Proof.
  intros Hsel Hbefore Hbad. rewrite read_files_from_folder_flat, Hsel.
  apply read_loop_first_failure; assumption.
Qed.

(** ** Instances of the claims on the sample corpus *)

Lemma read_folder_with_categories_isolates_failures_witness :
  os_isdir sample_os "bbc_news" = true /\
  exists corpus,
    outcome_of (sample_load 80 {["002.txt"]}) = Ok corpus /\
    corpus =
      omap (TextFiles.document_of ascii_codec sample_detect codec_of 80
              (os_disk sample_os))
        (selected (TextFiles.wanted {["002.txt"]}) (os_walk sample_os "bbc_news")).
Proof.
  split; [reflexivity |].
  destruct (read_folder_with_categories_isolates_failures ascii_codec
              sample_detect codec_of 80 {["002.txt"]} sample_os "bbc_news"
              eq_refl) as (corpus & Hok & Hcorpus & _).
  exists corpus. split; [exact Hok | exact Hcorpus].
Defined.

Lemma sample_load_strict_ok :
  outcome_of (sample_load 80 {["002.txt"]}) = Ok strict_corpus.
Proof. vm_compute. reflexivity. Qed.

Lemma sample_load_lenient_ok :
  outcome_of (sample_load 50 ∅) = Ok lenient_corpus.
Proof. vm_compute. reflexivity. Qed.


Lemma read_folder_with_categories_three_fields_witness :
  outcome_of (sample_load 50 ∅) = Ok lenient_corpus /\
  forall d, In d lenient_corpus ->
    dom d = ({["raw_content"; "category"; "file_name"]} : gset string).
Proof.
  split; [exact sample_load_lenient_ok |].
  intros d Hd.
  exact (proj1 (read_folder_with_categories_three_fields ascii_codec
                  sample_detect codec_of 50 ∅ sample_os "bbc_news"
                  lenient_corpus sample_load_lenient_ok d Hd)).
Defined.


Lemma read_folder_with_categories_ignores_witness :
  outcome_of (sample_load 80 {["002.txt"]}) = Ok strict_corpus /\
  forall d file_name,
    In d strict_corpus -> d !! "file_name" = Some file_name ->
    file_name ∉ ({["002.txt"]} : gset string).
Proof.
  split; [exact sample_load_strict_ok |].
  exact (read_folder_with_categories_ignores ascii_codec sample_detect
           codec_of 80 {["002.txt"]} sample_os "bbc_news" strict_corpus
           sample_load_strict_ok).
Defined.



(** * More of the notebook *)

(** ** [read_files_from_folder]: failure, success and composition *)

Section ReadFilesFromFolderMore.

Variable default_codec : bytes -> option string.

Lemma selected_app (keep : string -> bool) (w1 w2 : list walk_entry) :
  selected keep (w1 ++ w2) = selected keep w1 ++ selected keep w2.
Proof. unfold selected. rewrite listing_app. apply List.filter_app. Qed.

(** When every file of the loop can be read as text, the loop returns the
    texts, appended in order to what it was given. *)
Lemma read_loop_all_ok (disk : gmap string file) (fs : list (string * string))
    (texts contents : list string) :
  Forall2 (fun rn s => file_text default_codec disk (path_of rn) = Ok s)
    fs texts ->
  for_each fs (read_one default_codec disk) contents =
  (flat_map (fun rn => [EvOpen (path_of rn); EvRead (path_of rn);
                        EvClose (path_of rn)]) fs,
   Ok (contents ++ texts)).
Proof.
  intros Hall. revert contents.
  induction Hall as [| rn s fs texts Hs _ IH]; intros contents.
  - cbn. rewrite app_nil_r. reflexivity.
  - rewrite read_loop_cons, Hs, IH, (file_text_ok_log _ _ _ _ Hs).
    cbn [log_of outcome_of fst snd flat_map app].
    rewrite <- app_assoc. reflexivity.
Qed.

Lemma Forall_exists_Forall2 {A B} (P : A -> B -> Prop) (xs : list A) :
  Forall (fun x => exists y, P x y) xs -> exists ys, Forall2 P xs ys.
Proof.
  induction 1 as [| x xs [y Hy] _ [ys IH]].
  - exists []. constructor.
  - exists (y :: ys). constructor; assumption.
Qed.

(** X1: the loader stops at the first text file that cannot be opened or
    decoded: it raises the exception of that file, returns no text, has
    opened and closed the text files before it, and opens none after it. *)
Theorem read_files_from_folder_stops_at_first_failure
    (os : os_state) (root_folder : string)
    (before after : list (string * string)) (bad : string * string)
    (e : exn) :
  selected is_text_file (os_walk os root_folder) = before ++ bad :: after ->
  Forall (fun rn => exists s,
            file_text default_codec (os_disk os) (path_of rn) = Ok s) before ->
  file_text default_codec (os_disk os) (path_of bad) = Raise e ->
  read_files_from_folder default_codec os root_folder =
  (flat_map (fun rn => [EvOpen (path_of rn); EvRead (path_of rn);
                        EvClose (path_of rn)]) before ++
     file_log (os_disk os) (path_of bad),
   Raise e).
Proof.
  intros Hsel Hbefore Hbad. rewrite read_files_from_folder_flat, Hsel.
  apply Forall_exists_Forall2 in Hbefore as [texts Htexts].
  rewrite for_each_app, (read_loop_all_ok _ _ _ _ Htexts).
  cbn [bind]. rewrite read_loop_cons, Hbad. reflexivity.
Qed.

(** X2: the loader returns a list exactly when every text file that the
    walk lists can be opened and decoded. *)
Theorem read_files_from_folder_returns_iff
    (os : os_state) (root_folder : string) :
  (exists contents,
     outcome_of (read_files_from_folder default_codec os root_folder) =
     Ok contents) <->
  (forall entry file_name,
     In entry (os_walk os root_folder) -> In file_name (w_files entry) ->
     is_text_file file_name = true ->
     exists s,
       file_text default_codec (os_disk os)
         (Py.join (w_root entry) file_name) = Ok s).
Proof.
  split.
  - intros [contents Hok] entry n He Hn Ht.
    destruct (read_files_from_folder_ok default_codec os root_folder contents
                Hok) as [_ Hall].
    assert (Hsel : In (w_root entry, n)
              (selected is_text_file (os_walk os root_folder))).
    { apply elem_of_selected. exists entry. auto. }
    destruct (Forall2_In_l _ _ _ _ Hall Hsel) as (s & _ & Hs).
    exists s. exact Hs.
  - intros Hall.
    assert (Hfs : Forall (fun rn => exists s,
                    file_text default_codec (os_disk os) (path_of rn) = Ok s)
                    (selected is_text_file (os_walk os root_folder))).
    { apply List.Forall_forall. intros [r n] Hin.
      apply elem_of_selected in Hin as (entry & He & Hr & Hn & Ht).
      cbn [fst snd] in *. subst r. exact (Hall entry n He Hn Ht). }
    apply Forall_exists_Forall2 in Hfs as [texts Htexts].
    exists texts. rewrite read_files_from_folder_flat.
    rewrite (read_loop_all_ok _ _ _ _ Htexts). reflexivity.
Qed.

(** X3: when the walk of a folder is its own item followed by the walks of
    its sub-folders, as [os.walk] has it, and the folder and each
    sub-folder load, the folder's result is the texts of its own text files
    followed by the results of its sub-folders, in order. *)
Theorem read_files_from_folder_subfolders
    (os : os_state) (root_folder : string) (folder file_names : list string)
    (own : list string) (subs : list (list string)) :
  os_walk os root_folder =
    WalkEntry root_folder folder file_names ::
    flat_map (fun d => os_walk os (Py.join root_folder d)) folder ->
  Forall2 (fun n s =>
             file_text default_codec (os_disk os) (Py.join root_folder n) = Ok s)
    (List.filter is_text_file file_names) own ->
  Forall2 (fun d c =>
             outcome_of (read_files_from_folder default_codec os
                           (Py.join root_folder d)) = Ok c)
    folder subs ->
  outcome_of (read_files_from_folder default_codec os root_folder) =
  Ok (own ++ concat subs).
Proof.
  intros Hwalk Hown Hsubs.
  assert (Hall : Forall2
            (fun rn s => file_text default_codec (os_disk os) (path_of rn) = Ok s)
            (selected is_text_file (os_walk os root_folder)) (own ++ concat subs)).
  { rewrite Hwalk.
    change (?e :: ?w) with ([e] ++ w). rewrite selected_app.
    apply Forall2_app.
    - unfold selected, listing. cbn [flat_map w_root w_files].
      rewrite app_nil_r. clear -Hown. revert own Hown.
      induction file_names as [| n ns IH]; intros own Hown;
        cbn [map List.filter] in *.
      + inversion Hown; subst. constructor.
      + cbn [snd]. destruct (is_text_file n); [| exact (IH own Hown)].
        inversion Hown; subst. constructor; [assumption |].
        apply IH. assumption.
    - clear Hwalk Hown. induction Hsubs as [| d c ds cs Hc _ IH].
      + constructor.
      + cbn [flat_map concat]. rewrite selected_app.
        apply Forall2_app; [| exact IH].
        exact (proj2 (read_files_from_folder_ok default_codec os _ c Hc)). }
  rewrite read_files_from_folder_flat, (read_loop_all_ok _ _ _ _ Hall).
  reflexivity.
Qed.

(** X5: when the loader returns, reading one of the text files of the walk
    directly, as the cell of the first article does, opens, reads and
    closes that file and gives one of the strings that the loader
    returns. *)
Theorem read_text_file_in_contents
    (os : os_state) (root_folder : string) (contents : list string)
    (entry : walk_entry) (file_name : string) :
  outcome_of (read_files_from_folder default_codec os root_folder) = Ok contents ->
  In entry (os_walk os root_folder) -> In file_name (w_files entry) ->
  is_text_file file_name = true ->
  exists raw_data,
    read_text_file default_codec (os_disk os)
      (Py.join (w_root entry) file_name) =
    ([EvOpen (Py.join (w_root entry) file_name);
      EvRead (Py.join (w_root entry) file_name);
      EvClose (Py.join (w_root entry) file_name)], Ok raw_data) /\
    In raw_data contents.
Proof.
  intros Hok He Hn Ht.
  destruct (read_files_from_folder_ok default_codec os root_folder contents
              Hok) as [_ Hall].
  assert (Hsel : In (w_root entry, file_name)
            (selected is_text_file (os_walk os root_folder))).
  { apply elem_of_selected. exists entry. auto. }
  destruct (Forall2_In_l _ _ _ _ Hall Hsel) as (s & Hs & Htext).
  exists s. split; [| exact Hs].
  unfold path_of in Htext. cbn [fst snd] in Htext.
  unfold read_text_file, with_open, read. unfold file_text in Htext.
  destruct (os_disk os !! Py.join (w_root entry) file_name) as [[b |] |];
    try discriminate Htext.
  cbn. destruct (text_read default_codec b) as [s' |]; [| discriminate Htext].
  injection Htext as ->. reflexivity.
Qed.

End ReadFilesFromFolderMore.

Lemma read_files_from_folder_stops_at_first_failure_witness :
  read_files_from_folder ascii_codec sample_os "bbc_news" =
  ([EvOpen "bbc_news/business/001.txt"; EvRead "bbc_news/business/001.txt";
    EvClose "bbc_news/business/001.txt";
    EvOpen "bbc_news/business/002.txt"; EvRead "bbc_news/business/002.txt";
    EvClose "bbc_news/business/002.txt";
    EvOpen "bbc_news/tech/001.txt"; EvRead "bbc_news/tech/001.txt";
    EvClose "bbc_news/tech/001.txt"],
   Raise (UnicodeDecodeError "bbc_news/tech/001.txt")).
Proof.
  refine (read_files_from_folder_stops_at_first_failure ascii_codec sample_os
            "bbc_news"
            [("bbc_news/business", "001.txt"); ("bbc_news/business", "002.txt")]
            [("bbc_news/tech", "002.txt"); ("bbc_news/tech", "003.txt")]
            ("bbc_news/tech", "001.txt")
            (UnicodeDecodeError "bbc_news/tech/001.txt") _ _ _).
  - vm_compute. reflexivity.
  - repeat constructor; eexists; vm_compute; reflexivity.
  - vm_compute. reflexivity.
Defined.

Lemma read_files_from_folder_subfolders_witness :
  outcome_of (read_files_from_folder ascii_codec news_os "news") =
  Ok ([] ++ concat [["Ad sales boost"];
                    ["Claxton hunting first"; "O'Sullivan could run"]]).
Proof.
  refine (read_files_from_folder_subfolders ascii_codec news_os "news"
            ["business"; "sport"] ["LICENSE"] []
            [["Ad sales boost"];
             ["Claxton hunting first"; "O'Sullivan could run"]] _ _ _).
  - vm_compute. reflexivity.
  - vm_compute. constructor.
  - repeat constructor; vm_compute; reflexivity.
Defined.


Lemma read_text_file_in_contents_witness :
  exists raw_data,
    first_article ascii_codec business_os =
    ([EvOpen "bbc_news/business/001.txt"; EvRead "bbc_news/business/001.txt";
      EvClose "bbc_news/business/001.txt"], Ok raw_data) /\
    In raw_data ["Ad sales boost"; ("Dollar gains" ++ String "010" "on")%string].
Proof.
  refine (read_text_file_in_contents ascii_codec business_os
            "bbc_news/business"
            ["Ad sales boost"; ("Dollar gains" ++ String "010" "on")%string]
            (WalkEntry "bbc_news/business" [] ["001.txt"; "002.txt"; "notes.md"])
            "001.txt" _ _ _ _).
  - vm_compute. reflexivity.
  - left. reflexivity.
  - left. reflexivity.
  - reflexivity.
Defined.

(** ** Stop words and the table of stems *)

Lemma word_list_length (stop_words : gset string) (tokens : list string) :
  (List.length (word_list stop_words tokens) <= 20)%nat.
Proof.
  unfold word_list, without_stop_words.
  etransitivity; [apply filter_length_le | apply firstn_le_length].
Qed.

(** X6: the words that the table of stems is built from are the beginning
    of the token list without its stop words: at most twenty, none a stop
    word, in the order of the text, and the same words, as far as they go,
    as the ten that the cell before displays. *)
Theorem word_list_is_prefix (stop_words : gset string) (tokens : list string) :
  (exists rest,
     tokens_no_stop_words stop_words tokens =
     word_list stop_words tokens ++ rest) /\
  (List.length (word_list stop_words tokens) <= 20)%nat /\
  (forall t, In t (word_list stop_words tokens) ->
     (t ∉ stop_words) /\ In t (firstn 20 tokens)) /\
  firstn 10 (word_list stop_words tokens) =
    firstn (List.length (word_list stop_words tokens))
      (firstn 10 (tokens_no_stop_words stop_words tokens)).
Proof.
  assert (Hsplit :
    tokens_no_stop_words stop_words tokens =
    word_list stop_words tokens ++
    without_stop_words stop_words (skipn 20 tokens)).
  { unfold tokens_no_stop_words, word_list, without_stop_words.
    rewrite <- List.filter_app, firstn_skipn. reflexivity. }
  split; [eexists; exact Hsplit |]. split.
  - apply word_list_length.
  - split.
    + intros t Ht. unfold word_list, without_stop_words in Ht.
      apply filter_In in Ht as [Hin Hkeep].
      apply negb_true_iff, bool_decide_eq_false in Hkeep. auto.
    + rewrite Hsplit, take_take.
      rewrite (take_app_le _ _ (List.length (word_list stop_words tokens) `min` 10))
        by lia.
      destruct (Nat.le_ge_cases (List.length (word_list stop_words tokens)) 10)
        as [Hle | Hge].
      * rewrite Nat.min_l by exact Hle. rewrite !take_ge; [reflexivity | lia ..].
      * rewrite Nat.min_r by exact Hge. reflexivity.
Qed.

Lemma string_length_app (a b : string) :
  String.length (a ++ b) = (String.length a + String.length b)%nat.
Proof.
  induction a as [| c a IH]; [reflexivity |].
  rewrite append_cons. cbn [String.length]. rewrite IH. reflexivity.
Qed.

Lemma spaces_length (n : nat) : String.length (spaces n) = n.
Proof. induction n as [| n IH]; cbn; [| rewrite IH]; reflexivity. Qed.

Lemma ljust_length (width : nat) (s : string) :
  String.length (ljust width s) = Nat.max width (String.length s).
Proof. unfold ljust. rewrite string_length_app, spaces_length. lia. Qed.





(** A row is as long as its five fields, each counted for twenty characters
    at least. *)
Lemma table_row_length (a b c d e : string) :
  String.length (table_row a b c d e) =
  (Nat.max 20 (String.length a) + Nat.max 20 (String.length b) +
   Nat.max 20 (String.length c) + Nat.max 20 (String.length d) +
   Nat.max 20 (String.length e))%nat.
Proof.
  unfold table_row. rewrite !string_length_app, !ljust_length. lia.
Qed.



(** X8: no field of the table is ever cut: the line of a word is as long
    as its five fields, each counted for twenty characters at least, so
    that a word, stem or lemma of more than twenty characters makes its
    line longer than a hundred and shifts the columns after it. *)
Theorem stem_table_never_cuts
    (porter_stem lancaster_stem lemmatize lemmatize_v : string -> string)
    (stop_words : gset string) (tokens : list string) (i : nat) (word : string) :
  nth_error (word_list stop_words tokens) i = Some word ->
  exists line,
    nth_error (stem_table porter_stem lancaster_stem lemmatize lemmatize_v
                 stop_words tokens) (S i) = Some line /\
    String.length line =
      (Nat.max 20 (String.length word) +
       Nat.max 20 (String.length (porter_stem word)) +
       Nat.max 20 (String.length (lancaster_stem word)) +
       Nat.max 20 (String.length (lemmatize word)) +
       Nat.max 20 (String.length (lemmatize_v word)))%nat /\
    (100 <= String.length line)%nat /\
    ((20 < String.length word)%nat -> (100 < String.length line)%nat).
Proof.
  intros Hi. unfold stem_table. cbn [nth_error].
  exists (table_row word (porter_stem word) (lancaster_stem word)
            (lemmatize word) (lemmatize_v word)).
  split; [rewrite nth_error_map, Hi; reflexivity |].
  rewrite table_row_length. repeat split; lia.
Qed.

(** ** Articles: tokens, tagged documents and embeddings *)

Lemma article_tag_inj (i j : nat) : article_tag i = article_tag j -> i = j.
Proof.
  unfold article_tag. intros Heq.
  apply (inj (String.app "article_")) in Heq.
  apply (inj pretty) in Heq. exact Heq.
Qed.

Section ArticlesFacts.

Variable vec : Type.
Variable process_text : value vec -> value vec.

Local Abbreviation tokenised := (tokenised vec process_text).

Lemma tokenised_lookup (article article' : gmap string (value vec)) :
  tokenised article article' ->
  exists raw_content,
    article !! "raw_content" = Some raw_content /\
    article' !! "tokens" = Some (process_text raw_content) /\
    forall key, key <> "tokens" -> article' !! key = article !! key.
Proof.
  intros (rc & Hrc & ->). exists rc. split; [exact Hrc |]. split.
  - apply lookup_insert_eq.
  - intros key Hkey. apply lookup_insert_ne. congruence.
Qed.

Lemma add_tokens_app (before after : list (gmap string (value vec))) :
  snd (add_tokens process_text before) = None ->
  add_tokens process_text (before ++ after) =
  (fst (add_tokens process_text before) ++ fst (add_tokens process_text after),
   snd (add_tokens process_text after)).
Proof.
  induction before as [| article before IH]; cbn [app add_tokens].
  - intros _. destruct (add_tokens process_text after). reflexivity.
  - destruct (article !! "raw_content") as [rc |]; [| discriminate].
    destruct (add_tokens process_text before) as [before' err].
    cbn [snd fst] in *. intros ->. rewrite (IH eq_refl). reflexivity.
Qed.

Lemma add_tokens_all (raw_data : list (gmap string (value vec))) :
  (forall article, In article raw_data -> is_Some (article !! "raw_content")) ->
  snd (add_tokens process_text raw_data) = None /\
  Forall2 tokenised raw_data (fst (add_tokens process_text raw_data)).
Proof.
  induction raw_data as [| article rest IH]; intros Hall; cbn [add_tokens].
  - split; [reflexivity | constructor].
  - destruct (Hall article (or_introl eq_refl)) as [rc Hrc]. rewrite Hrc.
    destruct IH as [Herr Hrest]; [intros a Ha; apply Hall; right; exact Ha |].
    destruct (add_tokens process_text rest) as [rest' err].
    cbn [fst snd] in *. split; [exact Herr |].
    constructor; [exists rc; auto | exact Hrest].
Qed.

(** X9: when every article has its raw content, the loop of the tokens
    raises nothing and gives each article, in place, the tokens that
    [process_text] makes of its raw content; it changes no other key and
    no other article, and keeps the order and the number of articles. *)
Theorem add_tokens_returns (raw_data : list (gmap string (value vec))) :
  (forall article, In article raw_data -> is_Some (article !! "raw_content")) ->
  snd (add_tokens process_text raw_data) = None /\
  Forall2
    (fun article article' =>
       exists raw_content,
         article !! "raw_content" = Some raw_content /\
         article' !! "tokens" = Some (process_text raw_content) /\
         forall key, key <> "tokens" -> article' !! key = article !! key)
    raw_data (fst (add_tokens process_text raw_data)).
Proof.
  intros Hall. destruct (add_tokens_all raw_data Hall) as [Herr Hres].
  split; [exact Herr |].
  eapply Forall2_impl; [exact Hres |].
  intros a a' Ha. apply tokenised_lookup. exact Ha.
Qed.

(** X10: the loop of the tokens stops with [KeyError] at the first article
    without raw content; as the dictionaries are updated in place, the
    articles before it keep their new tokens, while that article and the
    ones after it are left as they were. *)
Theorem add_tokens_key_error
    (before after : list (gmap string (value vec)))
    (bad : gmap string (value vec)) :
  (forall article, In article before -> is_Some (article !! "raw_content")) ->
  bad !! "raw_content" = None ->
  exists before',
    add_tokens process_text (before ++ bad :: after) =
      (before' ++ bad :: after, Some (KeyError "raw_content")) /\
    Forall2
      (fun article article' =>
         exists raw_content,
           article !! "raw_content" = Some raw_content /\
           article' !! "tokens" = Some (process_text raw_content) /\
           forall key, key <> "tokens" -> article' !! key = article !! key)
      before before'.
Proof.
  intros Hbefore Hbad.
  destruct (add_tokens_all before Hbefore) as [Herr Hres].
  exists (fst (add_tokens process_text before)). split.
  - rewrite (add_tokens_app before (bad :: after) Herr).
    cbn [add_tokens]. rewrite Hbad. reflexivity.
  - eapply Forall2_impl; [exact Hres |].
    intros a a' Ha. apply tokenised_lookup. exact Ha.
Qed.

(** X11: running the loop of the tokens again on its own result changes
    nothing: the raw content is still there and gives the same tokens. *)
Theorem add_tokens_twice (raw_data : list (gmap string (value vec))) :
  snd (add_tokens process_text raw_data) = None ->
  add_tokens process_text (fst (add_tokens process_text raw_data)) =
  add_tokens process_text raw_data.
Proof.
  induction raw_data as [| article rest IH]; cbn [add_tokens];
    [reflexivity |].
  destruct (article !! "raw_content") as [rc |] eqn:Hrc; [| discriminate].
  destruct (add_tokens process_text rest) as [rest' err].
  cbn [fst snd] in *. intros ->. cbn [add_tokens].
  rewrite lookup_insert_ne by discriminate. rewrite Hrc, (IH eq_refl).
  rewrite insert_insert_eq. reflexivity.
Qed.

(** The tagged documents, whatever number the count starts from. *)
Lemma tagged_from_spec (raw_data : list (gmap string (value vec))) :
  forall idx docs,
    tagged_from idx raw_data = Returned docs ->
    Forall2
      (fun elnt doc =>
         exists tokens,
           elnt !! "tokens" = Some tokens /\ words doc = py_list tokens)
      raw_data docs /\
    map tags docs =
      map (fun i => [article_tag i]) (seq idx (List.length raw_data)).
Proof.
  induction raw_data as [| elnt rest IH]; intros idx docs;
    cbn [tagged_from].
  - intros [= <-]. split; [constructor | reflexivity].
  - destruct (elnt !! "tokens") as [tokens |] eqn:Htok; [| discriminate].
    destruct (tagged_from (S idx) rest) as [docs' | e] eqn:Hrest;
      [| discriminate].
    intros [= <-]. destruct (IH (S idx) docs' Hrest) as [Hall Htags].
    split.
    + constructor; [exists tokens; auto | exact Hall].
    + cbn [map tags List.length seq]. rewrite Htags. reflexivity.
Qed.



(** X12: the list of tagged documents has one document per article, in
    order: the document at position [i] holds the tokens of the article
    at position [i], as a list, under the single tag [article_i]. *)
Theorem tagged_documents_content
    (raw_data : list (gmap string (value vec)))
    (docs : list (TaggedDocument vec)) :
  tagged_documents raw_data = Returned docs ->
  List.length docs = List.length raw_data /\
  forall i elnt,
    nth_error raw_data i = Some elnt ->
    exists tokens,
      elnt !! "tokens" = Some tokens /\
      nth_error docs i = Some (Tagged (py_list tokens) [article_tag i]).
Proof.
  intros Hdocs. destruct (tagged_from_spec raw_data 0 docs Hdocs)
    as [Hall Htags].
  assert (Hlen : List.length docs = List.length raw_data).
  { symmetry. exact (Forall2_length _ _ _ Hall). }
  split; [exact Hlen |].
  intros i elnt Hi.
  assert (Hlt : (i < List.length raw_data)%nat)
    by (apply nth_error_Some; congruence).
  destruct (nth_error docs i) as [doc |] eqn:Hdoc;
    [| apply nth_error_None in Hdoc; lia].
  assert (Htag : tags doc = [article_tag i]).
  { pose proof (map_nth_error tags _ _ Hdoc) as Hm. rewrite Htags in Hm.
    rewrite (map_nth_error (fun i => [article_tag i]) i (seq 0 (List.length raw_data))
               (d := i)) in Hm.
    - congruence.
    - rewrite nth_error_nth' with (d := 0%nat) by (rewrite length_seq; exact Hlt).
      rewrite seq_nth by exact Hlt. reflexivity. }
  assert (Hpair : exists tokens,
            elnt !! "tokens" = Some tokens /\ words doc = py_list tokens).
  { clear -Hall Hi Hdoc. revert i Hi Hdoc.
    induction Hall as [| a d l l' Had _ IH]; intros [| i] Hi Hdoc;
      cbn [nth_error] in *; try discriminate.
    - injection Hi as <-. injection Hdoc as <-. exact Had.
    - exact (IH i Hi Hdoc). }
  destruct Hpair as (tokens & Htok & Hwords).
  exists tokens. split; [exact Htok |].
  destruct doc as [w t]. cbn [words tags] in *. subst. reflexivity.
Qed.

(** X13: no two tagged documents share a tag: the tags of the list, taken
    together, are pairwise distinct. *)
Theorem tagged_documents_distinct_tags
    (raw_data : list (gmap string (value vec)))
    (docs : list (TaggedDocument vec)) :
  tagged_documents raw_data = Returned docs ->
  NoDup (concat (map tags docs)).
Proof.
  intros Hdocs. destruct (tagged_from_spec raw_data 0 docs Hdocs)
    as [_ Htags].
  rewrite Htags.
  assert (Hflat : forall l : list nat,
            concat (map (fun i => [article_tag i]) l) = map article_tag l).
  { induction l as [| i l IH]; cbn; [| rewrite IH]; reflexivity. }
  rewrite Hflat.
  change (NoDup (article_tag <$> seq 0 (List.length raw_data))).
  apply (NoDup_fmap_2 (Inj0 := fun i j => article_tag_inj i j) article_tag).
  apply NoDup_seq.
Qed.


End ArticlesFacts.


Section EmbeddingsFacts.

Variable vec : Type.



Lemma tagged_from_nth (raw_data : list (gmap string (value vec))) :
  forall idx docs i,
    tagged_from idx raw_data = Returned docs ->
    (i < List.length raw_data)%nat ->
    exists doc,
      nth_error docs i = Some doc /\ tags doc = [article_tag (idx + i)].
Proof.
  induction raw_data as [| elnt rest IH]; intros idx docs i;
    cbn [tagged_from List.length]; [lia |].
  destruct (elnt !! "tokens") as [tokens |]; [| discriminate].
  destruct (tagged_from (S idx) rest) as [docs' | e] eqn:Hrest;
    [| discriminate].
  intros [= <-] Hi. destruct i as [| i].
  - eexists. split; [reflexivity |]. cbn [tags]. rewrite Nat.add_0_r.
    reflexivity.
  - destruct (IH (S idx) docs' i Hrest) as (doc & Hdoc & Htag); [lia |].
    exists doc. split; [exact Hdoc |].
    rewrite Htag. replace (S idx + i)%nat with (idx + S i)%nat by lia.
    reflexivity.
Qed.

Lemma add_embeddings_from_all (docvecs : gmap string vec)
    (raw_data : list (gmap string (value vec))) :
  forall idx,
    (forall i, (i < List.length raw_data)%nat ->
       is_Some (docvecs !! article_tag (idx + i))) ->
    snd (add_embeddings_from idx docvecs raw_data) = None /\
    forall i article,
      nth_error raw_data i = Some article ->
      exists v,
        docvecs !! article_tag (idx + i) = Some v /\
        nth_error (fst (add_embeddings_from idx docvecs raw_data)) i =
          Some (<["embeddings" := VVec v]> article).
Proof.
  induction raw_data as [| article rest IH]; intros idx Hall;
    cbn [add_embeddings_from].
  - split; [reflexivity |]. intros [| i] a Hi; discriminate Hi.
  - destruct (Hall 0%nat) as [v Hv]; [cbn; lia |].
    rewrite Nat.add_0_r in Hv. rewrite Hv.
    destruct (IH (S idx)) as [Herr Hrest].
    { intros i Hi. replace (S idx + i)%nat with (idx + S i)%nat by lia.
      apply Hall. cbn. lia. }
    destruct (add_embeddings_from (S idx) docvecs rest) as [rest' err].
    cbn [fst snd] in *. split; [exact Herr |].
    intros [| i] a Hi; cbn [nth_error] in *.
    + injection Hi as <-. exists v. rewrite Nat.add_0_r. auto.
    + destruct (Hrest i a Hi) as (w & Hw & Hnth).
      exists w. replace (idx + S i)%nat with (S idx + i)%nat by lia. auto.
Qed.

(** X16: when the model holds a vector for every tag of the tagged
    documents, the loop of the embeddings raises nothing, and gives the
    article at position [i], in place, the vector of the tag [article_i],
    the tag of its own tagged document; it changes no other key. *)
Theorem add_embeddings_returns (docvecs : gmap string vec)
    (raw_data : list (gmap string (value vec)))
    (docs : list (TaggedDocument vec)) :
  tagged_documents raw_data = Returned docs ->
  (forall doc tag, In doc docs -> In tag (tags doc) ->
     is_Some (docvecs !! tag)) ->
  snd (add_embeddings docvecs raw_data) = None /\
  forall i article,
    nth_error raw_data i = Some article ->
    exists v article' doc,
      nth_error docs i = Some doc /\ tags doc = [article_tag i] /\
      docvecs !! article_tag i = Some v /\
      nth_error (fst (add_embeddings docvecs raw_data)) i = Some article' /\
      article' !! "embeddings" = Some (VVec v) /\
      forall key, key <> "embeddings" -> article' !! key = article !! key.
Proof.
  intros Hdocs Htrained. unfold add_embeddings.
  destruct (add_embeddings_from_all docvecs raw_data 0) as [Herr Hnth].
  { intros i Hi.
    destruct (tagged_from_nth raw_data 0 docs i Hdocs Hi) as (doc & Hdoc & Htag).
    apply (Htrained doc); [exact (nth_error_In _ _ Hdoc) |].
    rewrite Htag. left. reflexivity. }
  split; [exact Herr |].
  intros i article Hi.
  assert (Hlt : (i < List.length raw_data)%nat)
    by (apply nth_error_Some; congruence).
  destruct (tagged_from_nth raw_data 0 docs i Hdocs Hlt) as (doc & Hdoc & Htag).
  destruct (Hnth i article Hi) as (v & Hv & Hres).
  exists v, (<["embeddings" := VVec v]> article), doc.
  cbn [Nat.add] in *. repeat split; try assumption.
  - apply lookup_insert_eq.
  - intros key Hkey. apply lookup_insert_ne. congruence.
Qed.

Lemma add_embeddings_from_unknown (docvecs : gmap string vec)
    (raw_data : list (gmap string (value vec))) :
  forall idx i,
    (i < List.length raw_data)%nat ->
    (forall j, (j < i)%nat -> is_Some (docvecs !! article_tag (idx + j))) ->
    docvecs !! article_tag (idx + i) = None ->
    snd (add_embeddings_from idx docvecs raw_data) =
      Some (KeyError (article_tag (idx + i))) /\
    skipn i (fst (add_embeddings_from idx docvecs raw_data)) = skipn i raw_data.
Proof.
  induction raw_data as [| article rest IH]; intros idx i Hi Hbefore Hnone;
    cbn [List.length] in Hi; [lia |].
  cbn [add_embeddings_from]. destruct i as [| i].
  - rewrite Nat.add_0_r in *. rewrite Hnone. split; reflexivity.
  - destruct (Hbefore 0%nat) as [v Hv]; [lia |].
    rewrite Nat.add_0_r in Hv. rewrite Hv.
    destruct (IH (S idx) i) as [Herr Hrest].
    + lia.
    + intros j Hj. replace (S idx + j)%nat with (idx + S j)%nat by lia.
      apply Hbefore. lia.
    + replace (S idx + i)%nat with (idx + S i)%nat by lia. exact Hnone.
    + destruct (add_embeddings_from (S idx) docvecs rest) as [rest' err].
      cbn [fst snd skipn] in *. split; [| exact Hrest].
      rewrite Herr. replace (S idx + i)%nat with (idx + S i)%nat by lia.
      reflexivity.
Qed.

(** X17: when the model has no vector for the tag of some article, the
    loop of the embeddings stops with [KeyError] for the first such tag,
    and leaves that article and the ones after it as they were. *)
Theorem add_embeddings_unknown_tag (docvecs : gmap string vec)
    (raw_data : list (gmap string (value vec))) (i : nat) :
  (i < List.length raw_data)%nat ->
  (forall j, (j < i)%nat -> is_Some (docvecs !! article_tag j)) ->
  docvecs !! article_tag i = None ->
  snd (add_embeddings docvecs raw_data) = Some (KeyError (article_tag i)) /\
  skipn i (fst (add_embeddings docvecs raw_data)) = skipn i raw_data.
Proof.
  intros Hi Hbefore Hnone.
  exact (add_embeddings_from_unknown docvecs raw_data 0 i Hi Hbefore Hnone).
Qed.

End EmbeddingsFacts.

(** ** Instances on the sample data *)


Lemma stem_table_never_cuts_witness :
  exists line,
    nth_error (stem_table cut_final_s cut_final_s (fun w => w) (fun w => w)
                 sample_stop_words sample_tokens) 1 = Some line /\
    (100 <= String.length line)%nat.
Proof.
  destruct (stem_table_never_cuts cut_final_s cut_final_s (fun w => w)
              (fun w => w) sample_stop_words sample_tokens 0 "timewarner"
              eq_refl) as (line & Hline & _ & Hlong & _).
  exists line. split; [exact Hline | exact Hlong].
Defined.

Lemma sample_articles_have_content :
  forall article, In article sample_articles ->
    is_Some (article !! "raw_content").
Proof.
  intros article Ha. in_cases Ha; eexists; vm_compute; reflexivity.
Qed.

Lemma add_tokens_returns_witness :
  snd (add_tokens sample_process_text sample_articles) = None /\
  List.length (fst (add_tokens sample_process_text sample_articles)) =
    List.length sample_articles.
Proof.
  destruct (add_tokens_returns unit sample_process_text sample_articles
              sample_articles_have_content) as [Herr Hres].
  split; [exact Herr |]. symmetry. exact (Forall2_length _ _ _ Hres).
Defined.

Lemma add_tokens_key_error_witness :
  exists before',
    add_tokens sample_process_text broken_articles =
      (before' ++
         [{["category" := VStr "sport"]};
          <["raw_content" := VStr "Claxton hunting first"]>
            {["category" := VStr "sport"]}],
       Some (KeyError "raw_content")) /\
    List.length before' = 1%nat.
Proof.
  destruct (add_tokens_key_error unit sample_process_text
              [<["raw_content" := VStr "Ad sales boost"]>
                 {["category" := VStr "business"]}]
              [<["raw_content" := VStr "Claxton hunting first"]>
                 {["category" := VStr "sport"]}]
              {["category" := VStr "sport"]})
    as (before' & Hrun & Hres).
  - intros article Ha. in_cases Ha. eexists. vm_compute. reflexivity.
  - vm_compute. reflexivity.
  - exists before'. split; [exact Hrun |].
    symmetry. exact (Forall2_length _ _ _ Hres).
Defined.

Lemma sample_add_tokens_ok :
  snd (add_tokens sample_process_text sample_articles) = None.
Proof. vm_compute. reflexivity. Qed.

Lemma add_tokens_twice_witness :
  add_tokens sample_process_text sample_tokenised =
  add_tokens sample_process_text sample_articles.
Proof.
  exact (add_tokens_twice unit sample_process_text sample_articles
           sample_add_tokens_ok).
Defined.

Lemma sample_tagged_documents :
  tagged_documents sample_tokenised = Returned sample_docs.
Proof. vm_compute. reflexivity. Qed.

Lemma tagged_documents_content_witness :
  List.length sample_docs = List.length sample_tokenised.
Proof.
  exact (proj1 (tagged_documents_content unit sample_tokenised sample_docs
                  sample_tagged_documents)).
Defined.

Lemma tagged_documents_distinct_tags_witness :
  NoDup (concat (map tags sample_docs)).
Proof.
  exact (tagged_documents_distinct_tags unit sample_tokenised sample_docs
           sample_tagged_documents).
Defined.


Lemma add_embeddings_returns_witness :
  snd (add_embeddings sample_docvecs sample_tokenised) = None.
Proof.
  refine (proj1 (add_embeddings_returns unit sample_docvecs sample_tokenised
                   sample_docs sample_tagged_documents _)).
  intros doc tag Hdoc Htag.
  in_cases Hdoc; in_cases Htag; eexists; vm_compute; reflexivity.
Defined.

Lemma add_embeddings_unknown_tag_witness :
  snd (add_embeddings (delete "article_1" sample_docvecs) sample_tokenised) =
    Some (KeyError (article_tag 1)) /\
  skipn 1 (fst (add_embeddings (delete "article_1" sample_docvecs)
                  sample_tokenised)) =
    skipn 1 sample_tokenised.
Proof.
  refine (add_embeddings_unknown_tag unit (delete "article_1" sample_docvecs)
            sample_tokenised 1 _ _ _).
  - vm_compute. lia.
  - intros j Hj. assert (j = 0)%nat as -> by lia.
    eexists. vm_compute. reflexivity.
  - vm_compute. reflexivity.
Defined.
